(** * Verification of the "hapit" chaincode (chaincode/hapit/go/hapit.go)

    A shallow embedding of the smart contract: the six handlers and the
    [Invoke] dispatcher over an in-memory world state, together with the part
    of Go's standard library the handlers call ([unicode/utf8],
    [encoding/json] for the two record types, [strconv.Itoa]).

    Go strings and byte slices are byte sequences; both are modelled by
    [string], whose characters are the 256 byte values. *)

From Stdlib Require Import ZArith NArith Ascii String DecimalString Lia.
From stdpp Require Import base strings list gmap.

Local Open Scope string_scope.

(** [lia] is used on byte arithmetic with [/] and [mod] by constants. *)
Local Ltac Zify.zify_post_hook ::= Z.to_euclidean_division_equations.

(* ===================================================================== *)
(** * Bytes and strings *)
(* ===================================================================== *)

(** [s[i]] as a number, and [byte(x)] (truncation to the low 8 bits). *)
Definition byte_val (c : ascii) : N := N_of_ascii c.
Definition byte (x : N) : ascii := ascii_of_N (N.land x 0xFF).

(** The double quote: the character 0x22. *)
Definition dquote : ascii := "034"%char.
Definition backslash : ascii := "\"%char.

(** [s[1:]]; on the empty string it is the string itself, so that the result
    is always a suffix of [s]. *)
Definition tail (s : string) : string :=
  match s with
  | String _ r => r
  | EmptyString => s
  end.

(** [s[n:]] for the sizes a UTF-8 sequence can have. *)
Definition skip (n : nat) (s : string) : string :=
  match n with
  | 0%nat => s
  | 1%nat => tail s
  | 2%nat => tail (tail s)
  | 3%nat => tail (tail (tail s))
  | _ => tail (tail (tail (tail s)))
  end.

(** [s[:n]], cut at the end of [s]. *)
Fixpoint take_str (n : nat) (s : string) : string :=
  match n, s with
  | S n, String c r => String c (take_str n r)
  | _, _ => ""
  end.

(* ===================================================================== *)
(** * unicode/utf8 *)
(* ===================================================================== *)

Module utf8.

Definition RuneError : N := 0xFFFD.
Definition RuneSelf : N := 0x80.
Definition MaxRune : N := 0x10FFFF.

Definition surrogateMin : N := 0xD800.
Definition surrogateMax : N := 0xDFFF.

Definition t2 : N := 0xC0.
Definition t3 : N := 0xE0.
Definition t4 : N := 0xF0.
Definition tx : N := 0x80.
Definition maskx : N := 0x3F.
Definition mask2 : N := 0x1F.
Definition mask3 : N := 0x0F.
Definition mask4 : N := 0x07.

Definition rune1Max : N := 0x7F.
Definition rune2Max : N := 0x7FF.
Definition rune3Max : N := 0xFFFF.

Definition locb : N := 0x80.
Definition hicb : N := 0xBF.

(** The table [first] together with [acceptRanges]: for a leading byte at or
    above [RuneSelf], the size of the sequence and the range accepted for the
    second byte; [None] for the bytes marked invalid ([xx]). *)
Definition first (p0 : N) : option (nat * (N * N)) :=
  if (p0 <? 0xC2)%N then None
  else if (p0 <? 0xE0)%N then Some (2%nat, (locb, hicb))
  else if (p0 =? 0xE0)%N then Some (3%nat, (0xA0, hicb)%N)
  else if (p0 =? 0xED)%N then Some (3%nat, (locb, 0x9F)%N)
  else if (p0 <? 0xF0)%N then Some (3%nat, (locb, hicb))
  else if (p0 =? 0xF0)%N then Some (4%nat, (0x90, hicb)%N)
  else if (p0 <? 0xF4)%N then Some (4%nat, (locb, hicb))
  else if (p0 =? 0xF4)%N then Some (4%nat, (locb, 0x8F)%N)
  else None.

Definition out_of (lo hi b : N) : bool := (b <? lo)%N || (hi <? b)%N.

(** [DecodeRune(p)]: the first rune of [p] and its width in bytes;
    [(RuneError, 0)] on the empty input and [(RuneError, 1)] on an invalid or
    truncated encoding. *)
Definition DecodeRune (p : string) : N * nat :=
  match p with
  | "" => (RuneError, 0%nat)
  | String c0 p1 =>
    let p0 := byte_val c0 in
    if (p0 <? RuneSelf)%N then (p0, 1%nat) else
    match first p0 with
    | None => (RuneError, 1%nat)
    | Some (sz, (lo, hi)) =>
      match p1 with
      | "" => (RuneError, 1%nat)
      | String c1 p2 =>
        let b1 := byte_val c1 in
        if out_of lo hi b1 then (RuneError, 1%nat) else
        if (sz <=? 2)%nat then
          (N.lor (N.shiftl (N.land p0 mask2) 6) (N.land b1 maskx), 2%nat)
        else
        match p2 with
        | "" => (RuneError, 1%nat)
        | String c2 p3 =>
          let b2 := byte_val c2 in
          if out_of locb hicb b2 then (RuneError, 1%nat) else
          if (sz <=? 3)%nat then
            (N.lor (N.lor (N.shiftl (N.land p0 mask3) 12)
                          (N.shiftl (N.land b1 maskx) 6))
                   (N.land b2 maskx), 3%nat)
          else
          match p3 with
          | "" => (RuneError, 1%nat)
          | String c3 _ =>
            let b3 := byte_val c3 in
            if out_of locb hicb b3 then (RuneError, 1%nat) else
            (N.lor (N.lor (N.lor (N.shiftl (N.land p0 mask4) 18)
                                 (N.shiftl (N.land b1 maskx) 12))
                          (N.shiftl (N.land b2 maskx) 6))
                   (N.land b3 maskx), 4%nat)
          end
        end
      end
    end
  end.

(** The three-byte case of [EncodeRune], shared by the fall-through from the
    case of surrogates and of values above [MaxRune]. *)
Definition encode3 (r : N) : string :=
  String (byte (N.lor t3 (N.shiftr r 12)))
  (String (byte (N.lor tx (N.land (N.shiftr r 6) maskx)))
  (String (byte (N.lor tx (N.land r maskx))) "")).

(** [EncodeRune(p, r)]: the bytes written. *)
Definition EncodeRune (r : N) : string :=
  if (r <=? rune1Max)%N then String (byte r) ""
  else if (r <=? rune2Max)%N then
    String (byte (N.lor t2 (N.shiftr r 6)))
    (String (byte (N.lor tx (N.land r maskx))) "")
  else if (MaxRune <? r)%N || ((surrogateMin <=? r)%N && (r <=? surrogateMax)%N)
  then encode3 RuneError
  else if (r <=? rune3Max)%N then encode3 r
  else
    String (byte (N.lor t4 (N.shiftr r 18)))
    (String (byte (N.lor tx (N.land (N.shiftr r 12) maskx)))
    (String (byte (N.lor tx (N.land (N.shiftr r 6) maskx)))
    (String (byte (N.lor tx (N.land r maskx))) ""))).

(** [ValidString(s)]: no position of [s] decodes to [(RuneError, 1)]. *)
Fixpoint ValidString (s : string) : bool :=
  match s with
  | "" => true
  | String c0 rest =>
    let '(r, size) := DecodeRune s in
    if (r =? RuneError)%N && (size =? 1)%nat then false
    else ValidString (skip (size - 1) rest)
  end.

End utf8.

(* ===================================================================== *)
(** * unicode/utf16, as far as [encoding/json] uses it *)
(* ===================================================================== *)

Module utf16.

Definition surr1 : N := 0xD800.
Definition surr2 : N := 0xDC00.
Definition surr3 : N := 0xE000.
Definition surrSelf : N := 0x10000.
Definition replacementChar : N := 0xFFFD.

Definition IsSurrogate (r : N) : bool := (surr1 <=? r)%N && (r <? surr3)%N.

(** [DecodeRune(r1, r2)]; the second argument is [None] where the caller
    passes the [-1] of a failed [getu4]. *)
Definition DecodeRune (r1 : N) (r2 : option N) : N :=
  match r2 with
  | Some r2 =>
    if (surr1 <=? r1)%N && (r1 <? surr2)%N && (surr2 <=? r2)%N && (r2 <? surr3)%N
    then (N.lor (N.shiftl (r1 - surr1) 10) (r2 - surr2) + surrSelf)%N
    else replacementChar
  | None => replacementChar
  end.

End utf16.

(* ===================================================================== *)
(** * strconv *)
(* ===================================================================== *)

(** [strconv.Itoa]: the decimal text of an integer. *)
Definition Itoa (i : Z) : string := NilZero.string_of_int (Z.to_int i).

(* ===================================================================== *)
(** * The records of the contract *)
(* ===================================================================== *)

(** [type Habit struct]. The field [Type] is spelled [Type_]. A slice is
    [None] when it is [nil] and [Some l] otherwise: [encoding/json] tells the
    two apart. *)
Record Habit := mkHabit {
  Name : string;
  Type_ : string;
  Attendees : option (list string);
  Owner : string
}.

(** [type Person struct]; [int] is taken unbounded, the ages are small
    constants. *)
Record Person := mkPerson {
  PersonName : string;
  Age : Z
}.

(** [Habit{}], the zero value. *)
Definition zeroHabit : Habit := mkHabit "" "" None "".

(** [append(s, x)] on a possibly nil slice. *)
Definition append (s : option (list string)) (x : string) : option (list string) :=
  Some (default [] s ++ [x])%list.

(** The elements of a slice, none for a nil one. *)
Definition elements (s : option (list string)) : list string := default [] s.

(* ===================================================================== *)
(** * encoding/json *)
(* ===================================================================== *)

(** What [json.Marshal] writes for the two records and what
    [json.Unmarshal] reads into a [Habit]. The package belongs to Go's
    standard library; the definitions follow its files [encode.go] (the
    string, slice and struct encoders, HTML escaping on), [scanner.go] (the
    syntax accepted), [decode.go] ([unquote], [object], [array],
    [literalStore]) and [fold.go] (member names matched without regard to
    case). *)

Module json.

(* --------------------------------------------------------------------- *)
(** ** Encoding *)
(* --------------------------------------------------------------------- *)

Definition hex : string := "0123456789abcdef".

(** [hex[i]] *)
Definition hex_at (i : N) : ascii :=
  match String.get (N.to_nat i) hex with
  | Some c => c
  | None => "0"%char
  end.

(** [htmlSafeSet[b]] for [b < utf8.RuneSelf]: the bytes written without
    escaping, that is every byte from the space on except the double quote,
    the backslash and the three characters escaped for HTML. *)
Definition htmlSafeSet (b : N) : bool :=
  (0x20 <=? b)%N &&
  negb ((b =? 0x22)%N || (b =? 0x26)%N || (b =? 0x3C)%N || (b =? 0x3E)%N
        || (b =? 0x5C)%N).

(** The [switch b] of [encodeState.string] for a byte that is not safe. *)
Definition escape_byte (c : ascii) : string :=
  let b := byte_val c in
  if (b =? 0x5C)%N || (b =? 0x22)%N then String backslash (String c "")
  else if (b =? 0x0A)%N then String backslash "n"
  else if (b =? 0x0D)%N then String backslash "r"
  else if (b =? 0x09)%N then String backslash "t"
  else String backslash (String "u" (String "0" (String "0"
         (String (hex_at (N.shiftr b 4)) (String (hex_at (N.land b 0xF)) ""))))).

(** The loop of [encodeState.string]: what is written between the quotes. *)
Fixpoint encode_runes (s : string) : string :=
  match s with
  | "" => ""
  | String c rest =>
    let b := byte_val c in
    if (b <? utf8.RuneSelf)%N then
      (if htmlSafeSet b then String c "" else escape_byte c)
        +:+ encode_runes rest
    else
      let '(r, size) := utf8.DecodeRune s in
      if (r =? utf8.RuneError)%N && (size =? 1)%nat then
        String backslash "ufffd" +:+ encode_runes rest
      else if (r =? 0x2028)%N || (r =? 0x2029)%N then
        String backslash "u202" +:+ String (hex_at (N.land r 0xF)) ""
          +:+ encode_runes (skip (size - 1) rest)
      else
        take_str size s +:+ encode_runes (skip (size - 1) rest)
  end.

(** [encodeState.string(s, escapeHTML = true)] *)
Definition encode_string (s : string) : string :=
  String dquote (encode_runes s +:+ String dquote "").

(** The loop of the slice encoder: a comma before every element but the
    first. *)
Fixpoint encode_elems (first : bool) (l : list string) : string :=
  match l with
  | [] => ""
  | x :: l' =>
    (if first then "" else ",") +:+ encode_string x +:+ encode_elems false l'
  end.

(** A [[]string]: [null] for a nil slice. *)
Definition encode_slice (s : option (list string)) : string :=
  match s with
  | None => "null"
  | Some l => "[" +:+ encode_elems true l +:+ "]"
  end.

(** A member name as the struct encoder writes it: quoted, then a colon. *)
Definition member (name : string) : string :=
  String dquote (name +:+ String dquote ":").

(** [json.Marshal] of a [Habit]; no value of this type makes it fail. *)
Definition Marshal (h : Habit) : string :=
  "{" +:+ member "name" +:+ encode_string (Name h) +:+
  "," +:+ member "type" +:+ encode_string (Type_ h) +:+
  "," +:+ member "attendees" +:+ encode_slice (Attendees h) +:+
  "," +:+ member "owner" +:+ encode_string (Owner h) +:+ "}".

(** [json.Marshal] of a [Person]. *)
Definition MarshalPerson (p : Person) : string :=
  "{" +:+ member "name" +:+ encode_string (PersonName p) +:+
  "," +:+ member "age" +:+ Itoa (Age p) +:+ "}".

(* --------------------------------------------------------------------- *)
(** ** Decoding *)
(* --------------------------------------------------------------------- *)

(** A JSON text as the scanner of [encoding/json] sees it. A number keeps its
    literal: neither record type decoded here has a numeric field. *)
#[warnings="-register-all"]
Inductive value :=
| JNull
| JBool (b : bool)
| JNumber (lit : string)
| JString (s : string)
| JArray (elems : list value)
| JObject (members : list (string * value)).

(** [isSpace] *)
Definition isSpace (c : ascii) : bool :=
  let b := byte_val c in
  (b =? 0x20)%N || (b =? 0x09)%N || (b =? 0x0D)%N || (b =? 0x0A)%N.

Fixpoint skip_space (s : string) : string :=
  match s with
  | String c r => if isSpace c then skip_space r else s
  | "" => s
  end.

(** One hexadecimal digit of [getu4], upper or lower case. *)
Definition hexval (c : ascii) : option N :=
  let b := byte_val c in
  if (0x30 <=? b)%N && (b <=? 0x39)%N then Some (b - 0x30)%N
  else if (0x61 <=? b)%N && (b <=? 0x66)%N then Some (b - 0x61 + 10)%N
  else if (0x41 <=? b)%N && (b <=? 0x46)%N then Some (b - 0x41 + 10)%N
  else None.

(** [getu4(s)]: the rune of a [\uXXXX] at the start of [s]; [None] is the
    [-1] of the source. *)
Definition getu4 (s : string) : option N :=
  match s with
  | String c0 (String c1 (String h1 (String h2 (String h3 (String h4 _))))) =>
    if Ascii.eqb c0 backslash && Ascii.eqb c1 "u" then
      match hexval h1, hexval h2, hexval h3, hexval h4 with
      | Some a, Some b, Some c, Some d =>
        Some ((((0 * 16 + a) * 16 + b) * 16 + c) * 16 + d)%N
      | _, _, _, _ => None
      end
    else None
  | _ => None
  end.

(** Prepends what one step of [unquote] wrote to the result of the rest. *)
Definition emit (w : string) (k : option (string * string)) : option (string * string) :=
  match k with
  | Some (out, rest) => Some (w +:+ out, rest)
  | None => None
  end.

(** A string literal, read from just after its opening quote: the scanner's
    states [stateInString], [stateInStringEsc], [stateInStringEscU...] and
    [unquote] in one pass. The result is the decoded text and the input left
    after the closing quote; [None] where the scanner reports a syntax error.
    Escaped surrogate halves that do not pair up, and bytes that are not
    UTF-8, become U+FFFD. *)
Fixpoint unquote (s : string) : option (string * string) :=
  match s with
  | "" => None
  | String c rest =>
    let b := byte_val c in
    if Ascii.eqb c backslash then
      match rest with
      | "" => None
      | String e r2 =>
        let eb := byte_val e in
        if (eb =? 0x22)%N || (eb =? 0x5C)%N || (eb =? 0x2F)%N then
          emit (String e "") (unquote r2)
        else if (eb =? 0x62)%N then emit (String (byte 0x08) "") (unquote r2)
        else if (eb =? 0x66)%N then emit (String (byte 0x0C) "") (unquote r2)
        else if (eb =? 0x6E)%N then emit (String (byte 0x0A) "") (unquote r2)
        else if (eb =? 0x72)%N then emit (String (byte 0x0D) "") (unquote r2)
        else if (eb =? 0x74)%N then emit (String (byte 0x09) "") (unquote r2)
        else if (eb =? 0x75)%N then
          match getu4 s with
          | None => None
          | Some rr =>
            let r6 := skip 4 r2 in
            if utf16.IsSurrogate rr then
              let dec := utf16.DecodeRune rr (getu4 r6) in
              if negb (dec =? utf16.replacementChar)%N then
                emit (utf8.EncodeRune dec) (unquote (skip 4 (skip 2 r6)))
              else
                emit (utf8.EncodeRune utf16.replacementChar) (unquote r6)
            else emit (utf8.EncodeRune rr) (unquote r6)
          end
        else None
      end
    else if Ascii.eqb c dquote then Some ("", rest)
    else if (b <? 0x20)%N then None
    else if (b <? utf8.RuneSelf)%N then emit (String c "") (unquote rest)
    else
      let '(rr, size) := utf8.DecodeRune s in
      emit (utf8.EncodeRune rr) (unquote (skip (size - 1) rest))
  end.

Definition isDigit (c : ascii) : bool :=
  let b := byte_val c in (0x30 <=? b)%N && (b <=? 0x39)%N.

(** The longest run of digits at the start of [s], and what follows. *)
Fixpoint digits (s : string) : string * string :=
  match s with
  | String c r =>
    if isDigit c then let '(d, r') := digits r in (String c d, r') else ("", s)
  | "" => ("", s)
  end.

(** At least one digit. *)
Definition digits1 (s : string) : option (string * string) :=
  match digits s with
  | ("", _) => None
  | (d, r) => Some (d, r)
  end.

(** The integer part: a single [0], or a digit from 1 to 9 and more digits
    ([state0] and [state1]). *)
Definition scan_int (s : string) : option (string * string) :=
  match s with
  | String c r =>
    if Ascii.eqb c "0" then Some ("0", r)
    else if isDigit c then let '(d, r') := digits r in Some (String c d, r')
    else None
  | "" => None
  end.

(** The fraction, if there is one ([stateDot], [stateDot0]). *)
Definition scan_frac (s : string) : option (string * string) :=
  match s with
  | String c r =>
    if Ascii.eqb c "." then
      match digits1 r with
      | Some (d, r') => Some (String c d, r')
      | None => None
      end
    else Some ("", s)
  | "" => Some ("", s)
  end.

(** The exponent, if there is one ([stateE], [stateESign], [stateE0]). *)
Definition scan_exp (s : string) : option (string * string) :=
  match s with
  | String c r =>
    if Ascii.eqb c "e" || Ascii.eqb c "E" then
      match r with
      | String sg r1 =>
        if Ascii.eqb sg "+" || Ascii.eqb sg "-" then
          match digits1 r1 with
          | Some (d, r') => Some (String c (String sg d), r')
          | None => None
          end
        else
          match digits1 r with
          | Some (d, r') => Some (String c d, r')
          | None => None
          end
      | "" => None
      end
    else Some ("", s)
  | "" => Some ("", s)
  end.

(** A number literal, sign included ([stateNeg] onwards). *)
Definition scan_number (s : string) : option (string * string) :=
  let '(sign, s1) :=
    match s with
    | String c r => if Ascii.eqb c "-" then ("-", r) else ("", s)
    | "" => ("", s)
    end in
  match scan_int s1 with
  | None => None
  | Some (i, s2) =>
    match scan_frac s2 with
    | None => None
    | Some (f, s3) =>
      match scan_exp s3 with
      | None => None
      | Some (e, s4) => Some (sign +:+ i +:+ f +:+ e, s4)
      end
    end
  end.

(** [s] with the prefix [p] removed, when it starts with it. *)
Fixpoint strip_prefix (p s : string) : option string :=
  match p, s with
  | "", _ => Some s
  | String a p', String b s' => if Ascii.eqb a b then strip_prefix p' s' else None
  | _, "" => None
  end.

(** The scanner and the value it delimits. The counter [n] bounds the number
    of values, elements and members opened; [parse] starts it above the length
    of the input, and each of them takes at least one byte.

    [scan_value] reads one value after optional space, [scan_elems] the
    elements of an array after its first bracket and [scan_members] the
    members of an object after its first brace, both up to and including the
    closing one. *)
Fixpoint scan_value (n : nat) (s : string) : option (value * string) :=
  match n with
  | O => None
  | S n =>
    match skip_space s with
    | "" => None
    | String c r as s' =>
      if Ascii.eqb c "{" then
        match skip_space r with
        | String c' r' =>
          if Ascii.eqb c' "}" then Some (JObject [], r')
          else
            match scan_members n r with
            | Some (ms, r'') => Some (JObject ms, r'')
            | None => None
            end
        | "" => None
        end
      else if Ascii.eqb c "[" then
        match skip_space r with
        | String c' r' =>
          if Ascii.eqb c' "]" then Some (JArray [], r')
          else
            match scan_elems n r with
            | Some (vs, r'') => Some (JArray vs, r'')
            | None => None
            end
        | "" => None
        end
      else if Ascii.eqb c dquote then
        match unquote r with
        | Some (str, r') => Some (JString str, r')
        | None => None
        end
      else if Ascii.eqb c "-" || isDigit c then
        match scan_number s' with
        | Some (lit, r') => Some (JNumber lit, r')
        | None => None
        end
      else
        match strip_prefix "true" s', strip_prefix "false" s', strip_prefix "null" s' with
        | Some r', _, _ => Some (JBool true, r')
        | _, Some r', _ => Some (JBool false, r')
        | _, _, Some r' => Some (JNull, r')
        | _, _, _ => None
        end
    end
  end
with scan_elems (n : nat) (s : string) : option (list value * string) :=
  match n with
  | O => None
  | S n =>
    match scan_value n s with
    | None => None
    | Some (v, r) =>
      match skip_space r with
      | String c r' =>
        if Ascii.eqb c "," then
          match scan_elems n r' with
          | Some (vs, r'') => Some (v :: vs, r'')
          | None => None
          end
        else if Ascii.eqb c "]" then Some ([v], r')
        else None
      | "" => None
      end
    end
  end
with scan_members (n : nat) (s : string) : option (list (string * value) * string) :=
  match n with
  | O => None
  | S n =>
    match skip_space s with
    | String q r =>
      if Ascii.eqb q dquote then
        match unquote r with
        | None => None
        | Some (key, r1) =>
          match skip_space r1 with
          | String c r2 =>
            if Ascii.eqb c ":" then
              match scan_value n r2 with
              | None => None
              | Some (v, r3) =>
                match skip_space r3 with
                | String c' r4 =>
                  if Ascii.eqb c' "," then
                    match scan_members n r4 with
                    | Some (ms, r5) => Some ((key, v) :: ms, r5)
                    | None => None
                    end
                  else if Ascii.eqb c' "}" then Some ([(key, v)], r4)
                  else None
                | "" => None
                end
              end
            else None
          | "" => None
          end
        end
      else None
    | "" => None
    end
  end.

(** [checkValid] and the scan of the whole input: one value, then nothing but
    space. *)
Definition parse (data : string) : option value :=
  match scan_value (S (String.length data)) data with
  | Some (v, r) => if String.eqb (skip_space r) "" then Some v else None
  | None => None
  end.

(** [json.Valid] *)
Definition Valid (data : string) : bool :=
  match parse data with Some _ => true | None => false end.

(** ** Filling a [Habit] *)

Definition caseMask : N := 0xDF.
Definition kelvin : N := 0x212A.
Definition smallLongEss : N := 0x17F.

(** [equalFoldRight(s, t)]: [s] is a field name, all ASCII; [t] is the member
    name read from the input. On the names without [k] or [s] it decides as
    [simpleLetterEqualFold] and [asciiEqualFold], which the source picks for
    them. *)
Fixpoint equalFoldRight (s t : string) : bool :=
  match s with
  | "" => match t with "" => true | _ => false end
  | String sc s' =>
    match t with
    | "" => false
    | String tc t' =>
      let sb := byte_val sc in
      let tb := byte_val tc in
      if (tb <? utf8.RuneSelf)%N then
        if (sb =? tb)%N then equalFoldRight s' t'
        else
          let sbUpper := N.land sb caseMask in
          if (0x41 <=? sbUpper)%N && (sbUpper <=? 0x5A)%N then
            if (sbUpper =? N.land tb caseMask)%N then equalFoldRight s' t'
            else false
          else false
      else
        let '(tr, size) := utf8.DecodeRune t in
        if (sb =? 0x73)%N || (sb =? 0x53)%N then
          if (tr =? smallLongEss)%N then equalFoldRight s' (skip (size - 1) t')
          else false
        else if (sb =? 0x6B)%N || (sb =? 0x4B)%N then
          if (tr =? kelvin)%N then equalFoldRight s' (skip (size - 1) t')
          else false
        else false
    end
  end.

(** The fields of [Habit] with the names of their [json] tags, in order. *)
Inductive field := fName | fType | fAttendees | fOwner.

Definition fields : list (string * field) :=
  [("name", fName); ("type", fType); ("attendees", fAttendees); ("owner", fOwner)].

(** The search of [object] for the field of a member name: an exact match
    ends it, otherwise the first name equal under case folding is kept. *)
Fixpoint find_field (key : string) (fs : list (string * field)) (f : option field)
  : option field :=
  match fs with
  | [] => f
  | (name, fd) :: fs' =>
    if String.eqb name key then Some fd
    else
      match f with
      | None =>
        if equalFoldRight name key then find_field key fs' (Some fd)
        else find_field key fs' None
      | Some _ => find_field key fs' f
      end
  end.

(** A value stored into a [string]: a string literal sets it, [null] leaves
    it, anything else is an [UnmarshalTypeError] that leaves it too. *)
Definition store_string (v : value) (old : string) : string :=
  match v with
  | JString s => s
  | _ => old
  end.

(** The elements of an array stored into a [[]string]: element [i] is decoded
    over the element the slice had at [i], over the empty string beyond its
    length. *)
Fixpoint store_elems (vs : list value) (old : list string) : list string :=
  match vs with
  | [] => []
  | v :: vs' => store_string v (hd "" old) :: store_elems vs' (tl old)
  end.

(** A value stored into a [[]string]: [null] makes it nil, an array replaces
    it, anything else is a type error that leaves it. *)
Definition store_slice (v : value) (old : option (list string)) : option (list string) :=
  match v with
  | JNull => None
  | JArray vs => Some (store_elems vs (elements old))
  | _ => old
  end.

Definition store_member (h : Habit) (m : string * value) : Habit :=
  match find_field (fst m) fields None with
  | Some fName => mkHabit (store_string (snd m) (Name h)) (Type_ h) (Attendees h) (Owner h)
  | Some fType => mkHabit (Name h) (store_string (snd m) (Type_ h)) (Attendees h) (Owner h)
  | Some fAttendees => mkHabit (Name h) (Type_ h) (store_slice (snd m) (Attendees h)) (Owner h)
  | Some fOwner => mkHabit (Name h) (Type_ h) (Attendees h) (store_string (snd m) (Owner h))
  | None => h
  end.

(** [decodeState.value] into a [Habit]: an object fills the fields member by
    member, in the order of the input; [null] and the values of another kind
    leave the struct as it is. *)
Definition store_value (v : value) (h : Habit) : Habit :=
  match v with
  | JObject ms => fold_left store_member ms h
  | _ => h
  end.

(** [json.Unmarshal(data, &habit)]: the habit afterwards. Invalid input
    leaves it untouched. Every caller drops the error returned, so it is not
    part of the result. *)
Definition Unmarshal (data : string) (h : Habit) : Habit :=
  match parse data with
  | Some v => store_value v h
  | None => h
  end.

End json.

(* ===================================================================== *)
(** * The ledger interface (shim) *)
(* ===================================================================== *)

(** The world state: the value under each key that has one. *)
Abbreviation State := (gmap string string).

Module shim.

(** [sc.Response], with the two status codes of the shim. *)
Record Response := mkResponse {
  Status : Z;
  Message : string;
  Payload : string
}.

Definition OK : Z := 200.
Definition ERROR : Z := 500.

(** [shim.Success(payload)]; a nil payload is the empty byte sequence. *)
Definition Success (payload : string) : Response := mkResponse OK "" payload.

(** [shim.Error(msg)] *)
Definition Error (msg : string) : Response := mkResponse ERROR msg "".

(** Go's [error]: [None] is [nil], [Some msg] an error with that text. *)
Definition error := option string.

(** Modelled from the spec: the state store of the hosting runtime (the
    [shim.ChaincodeStubInterface] implementation is not part of the
    repository). [get(key)] gives the bytes at [key], nothing for a missing
    key, and never fails. *)
Definition GetState (stub : State) (key : string) : string * error :=
  (default "" (stub !! key), None).

(** Modelled from the spec: [put(key, bytes)] overwrites the value at [key]. *)
Definition PutState (stub : State) (key value : string) : State * error :=
  (<[key := value]> stub, None).

(** One entry of a range scan ([queryresult.KV]). *)
Record KV := mkKV { Key : string; Value : string }.

(** The entries an iterator has still to yield. *)
Definition StateQueryIterator := list KV.

(** Entries ordered by key, bytewise. *)
Fixpoint insert_by_key (e : KV) (l : list KV) : list KV :=
  match l with
  | [] => [e]
  | e' :: l' =>
    if String.ltb (Key e) (Key e') then e :: l else e' :: insert_by_key e l'
  end.

Definition sort_by_key (l : list KV) : list KV := foldr insert_by_key [] l.

(** Modelled from the spec: [range_scan(startKey, endKey)] yields the entries
    with [startKey <= key < endKey] in the lexical order of the keys. *)
Definition GetStateByRange (stub : State) (startKey endKey : string)
  : StateQueryIterator * error :=
  (sort_by_key
     (map (fun kv => mkKV (fst kv) (snd kv))
        (filter (fun kv => String.leb startKey (fst kv) && String.ltb (fst kv) endKey = true)
                (map_to_list stub))),
   None).

(** [Next()]: the entry and the iterator after it. *)
Definition Next (it : StateQueryIterator) : option KV * StateQueryIterator * error :=
  match it with
  | e :: it' => (Some e, it', None)
  | [] => (None, [], Some "no more results")
  end.

(** [GetFunctionAndParameters()]: the first argument of the invocation is the
    function name, the others are its parameters. *)
Definition GetFunctionAndParameters (input : list string) : string * list string :=
  match input with
  | [] => ("", [])
  | function :: params => (function, params)
  end.

End shim.

(* ===================================================================== *)
(** * The smart contract *)
(* ===================================================================== *)

(** [args[i]]; every use is behind a check of [len(args)]. *)
Definition arg (args : list string) (i : nat) : string := nth i args "".

(** Every handler takes the world state the stub gives access to and returns
    the state after its writes with its response. *)

Definition Init (APIstub : State) : State * shim.Response :=
  (APIstub, shim.Success "").

Definition queryHabit (APIstub : State) (args : list string) : State * shim.Response :=
  if negb (length args =? 1)%nat then
    (APIstub, shim.Error "Incorrect number of arguments. Expecting 1")
  else
    let '(carAsBytes, _) := shim.GetState APIstub (arg args 0) in
    (APIstub, shim.Success carAsBytes).

Definition habits : list Habit :=
  [ mkHabit "Running" "Health" (Some ["Ruby"; "Kathy"]) "Kathy";
    mkHabit "English" "Learning" (Some ["Kathy"]) "Kathy";
    mkHabit "Workout" "Health" (Some ["Kimi"; "Rocky"]) "Kimi";
    mkHabit "bark" "Nature" (Some ["Ruby"; "Rocky"]) "Rocky";
    mkHabit "Blockchain" "Learning" (Some ["Kimi"; "Ruby"; "Rocky"]) "Kimi" ].

Definition people : list Person :=
  [ mkPerson "Kimi" 29;
    mkPerson "Kathy" 28;
    mkPerson "Ruby" 5;
    mkPerson "Rocky" 3 ].

(** [for i < len(habits)]: the habits from index [i] on. *)
Fixpoint put_habits (APIstub : State) (i : Z) (rest : list Habit) : State :=
  match rest with
  | [] => APIstub
  | h :: rest' =>
    let habitAsBytes := json.Marshal h in
    let '(APIstub', _) := shim.PutState APIstub ("HABIT" +:+ Itoa i) habitAsBytes in
    put_habits APIstub' (i + 1) rest'
  end.

(** [for j < len(people)]: the people from index [j] on. *)
Fixpoint put_people (APIstub : State) (j : Z) (rest : list Person) : State :=
  match rest with
  | [] => APIstub
  | p :: rest' =>
    let personAsBytes := json.MarshalPerson p in
    let '(APIstub', _) := shim.PutState APIstub ("PERSON" +:+ Itoa j) personAsBytes in
    put_people APIstub' (j + 1) rest'
  end.

Definition initLedger (APIstub : State) : State * shim.Response :=
  let APIstub1 := put_habits APIstub 0 habits in
  let APIstub2 := put_people APIstub1 0 people in
  (APIstub2, shim.Success "").

Definition createHabit (APIstub : State) (args : list string) : State * shim.Response :=
  if negb (length args =? 5)%nat then
    (APIstub, shim.Error "Incorrect number of arguments. Expecting 5")
  else
    let attendees := Some [arg args 3] in
    let habit := mkHabit (arg args 1) (arg args 2) attendees (arg args 4) in
    let habitAsBytes := json.Marshal habit in
    let '(APIstub', _) := shim.PutState APIstub (arg args 0) habitAsBytes in
    (APIstub', shim.Success "").

(** The loop of [queryAllHabits] over the entries the iterator still has;
    [HasNext()] is false once there is none. The result is the response of
    the early return, or the buffer at the end. *)
Fixpoint scan_results (resultsIterator : shim.StateQueryIterator)
    (buffer : string) (bArrayMemberAlreadyWritten : bool) {struct resultsIterator}
  : shim.Response + string :=
  match resultsIterator with
  | [] => inr buffer
  | _ :: resultsIterator' =>
    match shim.Next resultsIterator with
    | (_, _, Some err) => inl (shim.Error err)
    | (None, _, None) => inr buffer
    | (Some queryResponse, _, None) =>
      let buffer := if bArrayMemberAlreadyWritten then buffer +:+ "," else buffer in
      let buffer := buffer +:+ "{" +:+ String dquote "Key" +:+ String dquote ":" in
      let buffer := buffer +:+ String dquote "" in
      let buffer := buffer +:+ shim.Key queryResponse in
      let buffer := buffer +:+ String dquote "" in
      let buffer := buffer +:+ ", " +:+ String dquote "Record" +:+ String dquote ":" in
      let buffer := buffer +:+ shim.Value queryResponse in
      let buffer := buffer +:+ "}" in
      scan_results resultsIterator' buffer true
    end
  end.

Definition queryAllHabits (APIstub : State) : State * shim.Response :=
  let startKey := "HABIT0" in
  let endKey := "HABIT999" in
  match shim.GetStateByRange APIstub startKey endKey with
  | (_, Some err) => (APIstub, shim.Error err)
  | (resultsIterator, None) =>
    let buffer := "[" in
    match scan_results resultsIterator buffer false with
    | inl response => (APIstub, response)
    | inr buffer =>
      let buffer := buffer +:+ "]" in
      (APIstub, shim.Success buffer)
    end
  end.

Definition changeHabitOwner (APIstub : State) (args : list string) : State * shim.Response :=
  if negb (length args =? 2)%nat then
    (APIstub, shim.Error "Incorrect number of arguments. Expecting 2")
  else
    let '(habitAsBytes, _) := shim.GetState APIstub (arg args 0) in
    let habit := zeroHabit in
    let habit := json.Unmarshal habitAsBytes habit in
    let habit := mkHabit (Name habit) (Type_ habit) (Attendees habit) (arg args 1) in
    let habitAsBytes := json.Marshal habit in
    let '(APIstub', _) := shim.PutState APIstub (arg args 0) habitAsBytes in
    (APIstub', shim.Success "").

Definition changeHabitAttendees (APIstub : State) (args : list string) : State * shim.Response :=
  if negb (length args =? 2)%nat then
    (APIstub, shim.Error "Incorrect number of arguments. Expecting 2")
  else
    let '(habitAsBytes, _) := shim.GetState APIstub (arg args 0) in
    let habit := zeroHabit in
    let habit := json.Unmarshal habitAsBytes habit in
    let attendees := append (Attendees habit) (arg args 1) in
    let habit := mkHabit (Name habit) (Type_ habit) attendees (Owner habit) in
    let habitAsBytes := json.Marshal habit in
    let '(APIstub', _) := shim.PutState APIstub (arg args 0) habitAsBytes in
    (APIstub', shim.Success "").

(** [Invoke]: [input] is what the stub holds for the invocation, the function
    name and then its arguments. *)
Definition Invoke (APIstub : State) (input : list string) : State * shim.Response :=
  let '(function, args) := shim.GetFunctionAndParameters input in
  if String.eqb function "queryHabit" then queryHabit APIstub args
  else if String.eqb function "initLedger" then initLedger APIstub
  else if String.eqb function "createHabit" then createHabit APIstub args
  else if String.eqb function "queryAllHabits" then queryAllHabits APIstub
  else if String.eqb function "changeHabitOwner" then changeHabitOwner APIstub args
  else if String.eqb function "changeHabitAttendees" then changeHabitAttendees APIstub args
  else (APIstub, shim.Error "Invalid Smart Contract function name.").

(** [strings.Contains(s, substr)] *)
Fixpoint Contains (s substr : string) : bool :=
  match json.strip_prefix substr s with
  | Some _ => true
  | None =>
    match s with
    | String _ s' => Contains s' substr
    | "" => false
    end
  end.

(* ===================================================================== *)
(** * Notions used to state the properties *)
(* ===================================================================== *)

(** A string as it comes back from [encoding/json], which writes valid UTF-8
    only: every byte that is not part of a well-formed sequence is replaced by
    U+FFFD, the rest is kept. *)
Fixpoint coerce (s : string) : string :=
  match s with
  | "" => ""
  | String c rest =>
    if (byte_val c <? utf8.RuneSelf)%N then String c (coerce rest)
    else
      let '(r, size) := utf8.DecodeRune s in
      if (r =? utf8.RuneError)%N && (size =? 1)%nat then
        utf8.EncodeRune utf8.RuneError +:+ coerce rest
      else take_str size s +:+ coerce (skip (size - 1) rest)
  end.

Definition coerce_habit (h : Habit) : Habit :=
  mkHabit (coerce (Name h)) (coerce (Type_ h))
          (option_map (map coerce) (Attendees h)) (coerce (Owner h)).

(** All the strings of a habit are valid UTF-8. *)
Definition valid_habit (h : Habit) : bool :=
  utf8.ValidString (Name h) && utf8.ValidString (Type_ h)
  && forallb utf8.ValidString (elements (Attendees h))
  && utf8.ValidString (Owner h).

(** The JSON value of a habit. *)
Definition habit_value (h : Habit) : json.value :=
  json.JObject
    [ ("name", json.JString (coerce (Name h)));
      ("type", json.JString (coerce (Type_ h)));
      ("attendees",
        match Attendees h with
        | None => json.JNull
        | Some l => json.JArray (map (fun s => json.JString (coerce s)) l)
        end);
      ("owner", json.JString (coerce (Owner h))) ].


(** The habit that the bytes under [key] decode to, as the handlers read it:
    [GetState] and then [Unmarshal] into a fresh [Habit{}]. *)
Definition stored_habit (stub : State) (key : string) : Habit :=
  json.Unmarshal (fst (shim.GetState stub key)) zeroHabit.

(** The keys and values [initLedger] writes: the seed records under [HABIT0]
    to [HABIT4] and [PERSON0] to [PERSON3]. *)
Definition seed_entries : list (string * string) :=
  (imap (fun i h => ("HABIT" +:+ Itoa (Z.of_nat i), json.Marshal h)) habits ++
   imap (fun j p => ("PERSON" +:+ Itoa (Z.of_nat j), json.MarshalPerson p)) people)%list.

(** The object [queryAllHabits] writes for one entry, as a JSON value. *)
Definition result_value (key : string) (h : Habit) : json.value :=
  json.JObject [("Key", json.JString key); ("Record", habit_value h)].

(** The invocations considered for the attendees invariant: any invocation
    but a [changeHabitOwner] with two arguments on a key whose bytes do not
    decode to a habit with a non-nil [attendees]. *)
Inductive allowed (stub : State) : list string -> Prop :=
| allowed_empty : allowed stub []
| allowed_other function args :
    function <> "changeHabitOwner" -> allowed stub (function :: args)
| allowed_owner_count args :
    List.length args <> 2%nat -> allowed stub ("changeHabitOwner" :: args)
| allowed_owner key owner :
    Attendees (stored_habit stub key) <> None ->
    allowed stub ["changeHabitOwner"; key; owner].

(** The states such invocations lead to from the empty ledger. *)
Inductive reachable : State -> Prop :=
| reachable_empty : reachable ∅
| reachable_invoke stub input :
    reachable stub -> allowed stub input -> reachable (fst (Invoke stub input)).


(** The value is one of the person records [initLedger] writes. *)
Definition person_record (b : string) : Prop := In b (map json.MarshalPerson people).

(** The value is the encoding of a habit whose attendees are not nil. *)
Definition habit_record (b : string) : Prop :=
  exists h, b = json.Marshal h /\ Attendees h <> None.

(** Every value of the state is of one of these two kinds. *)
Definition well_formed (stub : State) : Prop :=
  forall key b, stub !! key = Some b -> person_record b \/ habit_record b.


(** Every string a value holds, member names apart, is valid UTF-8. *)
Fixpoint valid_value (v : json.value) : bool :=
  match v with
  | json.JString s => utf8.ValidString s
  | json.JArray vs => forallb valid_value vs
  | json.JObject ms => forallb (fun m => valid_value (snd m)) ms
  | _ => true
  end.

(** [key] holds a JSON text, and [h] is the habit it decodes to. *)
Definition holds_habit (stub : State) (key : string) (h : Habit) : Prop :=
  exists b, stub !! key = Some b /\ json.Valid b = true /\ json.Unmarshal b zeroHabit = h.


(* ===================================================================== *)
(** * Notions used for the further properties *)
(* ===================================================================== *)

(** The function names [Invoke] routes. *)
Definition functions : list string :=
  ["queryHabit"; "initLedger"; "createHabit"; "queryAllHabits";
   "changeHabitOwner"; "changeHabitAttendees"].

(** The keys [queryAllHabits] scans: from [startKey] on, below [endKey]. *)
Definition in_range (key : string) : bool :=
  String.leb "HABIT0" key && String.ltb key "HABIT999".


(** The states any sequence of invocations leads to from the empty ledger. *)
Inductive invoked : State -> Prop :=
| invoked_empty : invoked ∅
| invoked_step stub input : invoked stub -> invoked (fst (Invoke stub input)).

(** The text [queryAllHabits] writes for one entry, and for the entries of an
    iterator, with the comma before every entry but the first. *)
Definition entry_text (e : shim.KV) : string :=
  "{" +:+ String dquote "Key" +:+ String dquote ":" +:+ String dquote "" +:+
  shim.Key e +:+ String dquote "" +:+ ", " +:+ String dquote "Record" +:+
  String dquote ":" +:+ shim.Value e +:+ "}".

Fixpoint entries_text (written : bool) (it : shim.StateQueryIterator) : string :=
  match it with
  | [] => ""
  | e :: it' => (if written then "," else "") +:+ entry_text e +:+ entries_text true it'
  end.




(** The person records [initLedger] writes, with their keys. *)
Definition person_entries : list (string * string) :=
  imap (fun j p => ("PERSON" +:+ Itoa (Z.of_nat j), json.MarshalPerson p)) people.


(** Every value of the state is the encoding of a habit, or a person record
    still under the key [initLedger] gave it. *)
Definition habits_or_persons (stub : State) : Prop :=
  forall key b, stub !! key = Some b ->
    (exists h, b = json.Marshal h) \/ In (key, b) person_entries.

(* ===================================================================== *)
(** * Theorems *)
(* ===================================================================== *)

(* ===================================================================== *)
(** * Examples *)
(* ===================================================================== *)

Example DecodeRune_euro :
  utf8.DecodeRune (String (byte 0xE2) (String (byte 0x82) (String (byte 0xAC) "x")))
  = (0x20AC%N, 3%nat).
Proof. reflexivity. Qed.

Example EncodeRune_euro :
  utf8.EncodeRune 0x20AC
  = String (byte 0xE2) (String (byte 0x82) (String (byte 0xAC) "")).
Proof. reflexivity. Qed.

Example DecodeRune_overlong :
  utf8.DecodeRune (String (byte 0xC0) (String (byte 0x80) "")) = (utf8.RuneError, 1%nat).
Proof. reflexivity. Qed.

Example ValidString_ff : utf8.ValidString (String (byte 0xFF) "") = false.
Proof. reflexivity. Qed.

Example Marshal_seed0 :
  json.Marshal (mkHabit "Running" "Health" (Some ["Ruby"; "Kathy"]) "Kathy")
  = "{" +:+ json.member "name" +:+ String dquote ("Running" +:+ String dquote
    ("," +:+ json.member "type" +:+ String dquote ("Health" +:+ String dquote
    ("," +:+ json.member "attendees" +:+ "[" +:+ String dquote ("Ruby" +:+
     String dquote ("," +:+ String dquote ("Kathy" +:+ String dquote ("]," +:+
     json.member "owner" +:+ String dquote ("Kathy" +:+ String dquote "}"))))))))).
Proof. reflexivity. Qed.

Example encode_string_escapes :
  json.encode_string (String "<"%char (String "010"%char (String (byte 0xFF)
    (String dquote (String "001"%char "")))))
  = String dquote (String backslash "u003c" +:+ String backslash "n" +:+
      String backslash "ufffd" +:+ String backslash (String dquote "") +:+
      String backslash "u0001" +:+ String dquote "").
Proof. reflexivity. Qed.

Example MarshalPerson_kimi :
  json.MarshalPerson (mkPerson "Kimi" 29)
  = "{" +:+ json.member "name" +:+ String dquote ("Kimi" +:+ String dquote
    ("," +:+ json.member "age" +:+ "29}")).
Proof. reflexivity. Qed.

Example Unmarshal_seed0 :
  json.Unmarshal
    (json.Marshal (mkHabit "Running" "Health" (Some ["Ruby"; "Kathy"]) "Kathy"))
    zeroHabit
  = mkHabit "Running" "Health" (Some ["Ruby"; "Kathy"]) "Kathy".
Proof. vm_compute. reflexivity. Qed.

Example Unmarshal_person :
  json.Unmarshal (json.MarshalPerson (mkPerson "Kimi" 29)) zeroHabit
  = mkHabit "Kimi" "" None "".
Proof. vm_compute. reflexivity. Qed.

Example Unmarshal_empty : json.Unmarshal "" zeroHabit = zeroHabit.
Proof. reflexivity. Qed.

Example Unmarshal_folded_names :
  json.Unmarshal
    ("{ " +:+ json.member "NAME" +:+ String dquote "a" +:+ String dquote "" +:+
     " , " +:+ json.member "Attendees" +:+ " [ null, 1.5e3 ,true ] ," +:+
     json.member "x" +:+ "{}}") zeroHabit
  = mkHabit "a" "" (Some [""; ""; ""]) "".
Proof. vm_compute. reflexivity. Qed.

Example parse_escapes :
  json.parse (String dquote (String backslash "u00e9" +:+ String backslash "ud83d"
     +:+ String backslash "ude00" +:+ String backslash "ud83d" +:+ String dquote ""))
  = Some (json.JString
      (utf8.EncodeRune 0xE9 +:+ utf8.EncodeRune 0x1F600 +:+ utf8.EncodeRune 0xFFFD)).
Proof. vm_compute. reflexivity. Qed.

Example Valid_examples :
  map json.Valid ["[]"; "[1,]"; "01"; "-0.5E+7"; "{}x"; " null "; "nul"; "[[[]]]"]
  = [true; false; false; true; false; true; false; true].
Proof. vm_compute. reflexivity. Qed.

Example queryAllHabits_empty :
  queryAllHabits ∅ = (∅, shim.Success "[]").
Proof. vm_compute. reflexivity. Qed.

Example queryAllHabits_seeded_valid :
  json.Valid (shim.Payload (snd (queryAllHabits (fst (initLedger ∅))))) = true.
Proof. vm_compute. reflexivity. Qed.

(* ===================================================================== *)
(** * Bit operations as arithmetic *)
(* ===================================================================== *)

Section BitArith.
Local Open Scope N_scope.

Lemma lor_add (k a b : N) :
  a mod 2 ^ k = 0 -> b < 2 ^ k -> N.lor a b = a + b.
Proof.
  intros Ha Hb.
  assert (Hdisj : N.land a b = 0).
  { apply N.bits_inj. intros n. rewrite N.land_spec, N.bits_0.
    destruct (N.lt_ge_cases n k) as [Hn | Hn].
    - rewrite <- (N.mod_pow2_bits_low a k n Hn), Ha, N.bits_0. reflexivity.
    - rewrite <- (N.mod_small b (2 ^ k) Hb), (N.mod_pow2_bits_high b k n Hn).
      apply andb_false_r. }
  rewrite (N.add_nocarry_lxor a b Hdisj). symmetry. apply N.lxor_lor, Hdisj.
Qed.

Lemma land_0xFF x : N.land x 0xFF = x mod 256.
Proof. change 0xFF with (N.ones 8). apply N.land_ones. Qed.

Lemma land_0x3F x : N.land x 0x3F = x mod 64.
Proof. change 0x3F with (N.ones 6). apply N.land_ones. Qed.

Lemma land_0x1F x : N.land x 0x1F = x mod 32.
Proof. change 0x1F with (N.ones 5). apply N.land_ones. Qed.

Lemma land_0x0F x : N.land x 0x0F = x mod 16.
Proof. change 0x0F with (N.ones 4). apply N.land_ones. Qed.

Lemma land_0x07 x : N.land x 0x07 = x mod 8.
Proof. change 0x07 with (N.ones 3). apply N.land_ones. Qed.

Lemma shiftl_6 x : N.shiftl x 6 = x * 64.
Proof. apply (N.shiftl_mul_pow2 x 6). Qed.

Lemma shiftl_12 x : N.shiftl x 12 = x * 4096.
Proof. apply (N.shiftl_mul_pow2 x 12). Qed.

Lemma shiftl_18 x : N.shiftl x 18 = x * 262144.
Proof. apply (N.shiftl_mul_pow2 x 18). Qed.

Lemma shiftr_6 x : N.shiftr x 6 = x / 64.
Proof. apply (N.shiftr_div_pow2 x 6). Qed.

Lemma shiftr_12 x : N.shiftr x 12 = x / 4096.
Proof. apply (N.shiftr_div_pow2 x 12). Qed.

Lemma shiftr_18 x : N.shiftr x 18 = x / 262144.
Proof. apply (N.shiftr_div_pow2 x 18). Qed.

Lemma rune2_arith p0 b1 :
  N.lor (N.shiftl (N.land p0 0x1F) 6) (N.land b1 0x3F) = (p0 mod 32) * 64 + b1 mod 64.
Proof.
  rewrite land_0x1F, land_0x3F, shiftl_6.
  apply (lor_add 6); change (2 ^ 6) with 64; lia.
Qed.

Lemma rune3_arith p0 b1 b2 :
  N.lor (N.lor (N.shiftl (N.land p0 0x0F) 12) (N.shiftl (N.land b1 0x3F) 6))
        (N.land b2 0x3F)
  = (p0 mod 16) * 4096 + (b1 mod 64) * 64 + b2 mod 64.
Proof.
  rewrite land_0x0F, !land_0x3F, shiftl_6, shiftl_12.
  rewrite (lor_add 12 (p0 mod 16 * 4096) (b1 mod 64 * 64))
    by (change (2 ^ 12) with 4096; lia).
  apply (lor_add 6); change (2 ^ 6) with 64; lia.
Qed.

Lemma rune4_arith p0 b1 b2 b3 :
  N.lor (N.lor (N.lor (N.shiftl (N.land p0 0x07) 18) (N.shiftl (N.land b1 0x3F) 12))
               (N.shiftl (N.land b2 0x3F) 6))
        (N.land b3 0x3F)
  = (p0 mod 8) * 262144 + (b1 mod 64) * 4096 + (b2 mod 64) * 64 + b3 mod 64.
Proof.
  rewrite land_0x07, !land_0x3F, shiftl_6, shiftl_12, shiftl_18.
  rewrite (lor_add 18 (p0 mod 8 * 262144) (b1 mod 64 * 4096))
    by (change (2 ^ 18) with 262144; lia).
  rewrite (lor_add 12 (p0 mod 8 * 262144 + b1 mod 64 * 4096) (b2 mod 64 * 64))
    by (change (2 ^ 12) with 4096; lia).
  apply (lor_add 6); change (2 ^ 6) with 64; lia.
Qed.

(** The bytes [EncodeRune] writes, as numbers. *)
Lemma lead2_arith r : r < 0x800 -> N.land (N.lor 0xC0 (N.shiftr r 6)) 0xFF = 192 + r / 64.
Proof.
  intros Hr. rewrite shiftr_6, (lor_add 6) by (change (2 ^ 6) with 64; lia).
  rewrite land_0xFF. apply N.mod_small. lia.
Qed.

Lemma lead3_arith r : r < 0x10000 -> N.land (N.lor 0xE0 (N.shiftr r 12)) 0xFF = 224 + r / 4096.
Proof.
  intros Hr. rewrite shiftr_12, (lor_add 5) by (change (2 ^ 5) with 32; lia).
  rewrite land_0xFF. apply N.mod_small. lia.
Qed.

Lemma lead4_arith r : r < 0x110000 -> N.land (N.lor 0xF0 (N.shiftr r 18)) 0xFF = 240 + r / 262144.
Proof.
  intros Hr. rewrite shiftr_18, (lor_add 4) by (change (2 ^ 4) with 16; lia).
  rewrite land_0xFF. apply N.mod_small. lia.
Qed.

Lemma cont_arith x : N.land (N.lor 0x80 (N.land x 0x3F)) 0xFF = 128 + x mod 64.
Proof.
  rewrite land_0x3F, (lor_add 6) by (change (2 ^ 6) with 64; lia).
  rewrite land_0xFF. apply N.mod_small. lia.
Qed.

End BitArith.

(* ===================================================================== *)
(** * Strings *)
(* ===================================================================== *)

Lemma app_String c (s t : string) : String c s +:+ t = String c (s +:+ t).
Proof. reflexivity. Qed.

Lemma app_empty (t : string) : "" +:+ t = t.
Proof. reflexivity. Qed.

(** Pushes the appends of a goal under the characters of their left
    arguments. *)
Ltac norm_app := rewrite ?app_String, ?app_empty.

Lemma app_assoc_str (a b c : string) : (a +:+ b) +:+ c = a +:+ (b +:+ c).
Proof. induction a as [|x a IH]; [reflexivity |]. norm_app. rewrite IH. reflexivity. Qed.

Lemma app_nil_r_str (s : string) : s +:+ "" = s.
Proof. induction s as [|c s IH]; [reflexivity |]. norm_app. rewrite IH. reflexivity. Qed.

Lemma length_app_str (a b : string) :
  String.length (a +:+ b) = (String.length a + String.length b)%nat.
Proof. induction a as [|x a IH]; [reflexivity |]. norm_app. cbn. rewrite IH. reflexivity. Qed.

Lemma tail_length_le s : (String.length (tail s) <= String.length s)%nat.
Proof. destruct s; cbn; lia. Qed.

Lemma skip_length_le n s : (String.length (skip n s) <= String.length s)%nat.
Proof.
  destruct n as [|[|[|[|n]]]]; cbn [skip];
    repeat match goal with
    | |- context [tail ?x] =>
      lazymatch x with
      | context [tail _] => fail
      | _ => pose proof (tail_length_le x); generalize dependent (tail x); intros
      end
    end; lia.
Qed.

Lemma skip_app (a t : string) (n : nat) :
  String.length a = n -> (n <= 4)%nat -> skip n (a +:+ t) = t.
Proof.
  intros <- Hn.
  destruct a as [|? [|? [|? [|? [|? a]]]]]; cbn in Hn |- *; try reflexivity; lia.
Qed.

(* ===================================================================== *)
(** * unicode/utf8 *)
(* ===================================================================== *)

Lemma byte_eq (x : N) c : N.land x 0xFF = byte_val c -> byte x = c.
Proof. unfold byte. intros ->. apply ascii_N_embedding. Qed.

Lemma byte_val_byte x : byte_val (byte x) = N.land x 0xFF.
Proof.
  unfold byte_val, byte. apply N_ascii_embedding.
  rewrite land_0xFF. apply N.mod_lt. discriminate.
Qed.

(** Decides the comparisons of a goal about [EncodeRune] by arithmetic. *)
Ltac decide_tests :=
  repeat match goal with
  | |- context [(?a <=? ?b)%N] =>
    first [ replace (a <=? b)%N with true by (symmetry; apply N.leb_le; lia)
          | replace (a <=? b)%N with false by (symmetry; apply N.leb_gt; lia) ]
  | |- context [(?a <? ?b)%N] =>
    first [ replace (a <? b)%N with true by (symmetry; apply N.ltb_lt; lia)
          | replace (a <? b)%N with false by (symmetry; apply N.ltb_ge; lia) ]
  | |- context [(?a =? ?b)%N] =>
    first [ replace (a =? b)%N with true by (symmetry; apply N.eqb_eq; lia)
          | replace (a =? b)%N with false by (symmetry; apply N.eqb_neq; lia) ]
  end.

(** What the table [first] says about a leading byte it accepts. *)
Lemma first_spec p0 sz lo hi :
  utf8.first p0 = Some (sz, (lo, hi)) ->
  (0x80 <= lo /\ hi <= 0xBF)%N /\
  ((sz = 2%nat /\ 0xC2 <= p0 < 0xE0)%N \/
   (sz = 3%nat /\ 0xE0 <= p0 < 0xF0 /\ (p0 = 0xE0 -> lo = 0xA0) /\ (p0 = 0xED -> hi = 0x9F))%N \/
   (sz = 4%nat /\ 0xF0 <= p0 <= 0xF4 /\ (p0 = 0xF0 -> lo = 0x90) /\ (p0 = 0xF4 -> hi = 0x8F))%N).
Proof.
  unfold utf8.first, utf8.locb, utf8.hicb.
  repeat match goal with
  | |- context [(?a <? ?b)%N] => destruct (N.ltb_spec a b)
  | |- context [(?a =? ?b)%N] => destruct (N.eqb_spec a b)
  end; intros [= <- <- <-] || discriminate; lia.
Qed.

Lemma first_2 p0 :
  (0xC2 <= p0 < 0xE0)%N -> utf8.first p0 = Some (2%nat, (utf8.locb, utf8.hicb)).
Proof. intros H. unfold utf8.first. decide_tests. reflexivity. Qed.

Lemma first_3 p0 :
  (0xE0 <= p0 < 0xF0)%N ->
  utf8.first p0
  = Some (3%nat, (if (p0 =? 0xE0)%N then 0xA0%N else utf8.locb,
                  if (p0 =? 0xED)%N then 0x9F%N else utf8.hicb)).
Proof.
  intros H. unfold utf8.first.
  replace (p0 <? 0xC2)%N with false by (symmetry; apply N.ltb_ge; lia).
  replace (p0 <? 0xE0)%N with false by (symmetry; apply N.ltb_ge; lia).
  replace (p0 <? 0xF0)%N with true by (symmetry; apply N.ltb_lt; lia).
  destruct (N.eqb_spec p0 0xE0) as [-> | ?]; [reflexivity |].
  destruct (N.eqb_spec p0 0xED); reflexivity.
Qed.

Lemma first_4 p0 :
  (0xF0 <= p0 <= 0xF4)%N ->
  utf8.first p0
  = Some (4%nat, (if (p0 =? 0xF0)%N then 0x90%N else utf8.locb,
                  if (p0 =? 0xF4)%N then 0x8F%N else utf8.hicb)).
Proof.
  intros H. unfold utf8.first.
  replace (p0 <? 0xC2)%N with false by (symmetry; apply N.ltb_ge; lia).
  replace (p0 <? 0xE0)%N with false by (symmetry; apply N.ltb_ge; lia).
  replace (p0 =? 0xE0)%N with false by (symmetry; apply N.eqb_neq; lia).
  replace (p0 =? 0xED)%N with false by (symmetry; apply N.eqb_neq; lia).
  replace (p0 <? 0xF0)%N with false by (symmetry; apply N.ltb_ge; lia).
  destruct (N.eqb_spec p0 0xF0) as [-> | ?]; [reflexivity |].
  destruct (N.ltb_spec p0 0xF4); [| destruct (N.eqb_spec p0 0xF4); [| lia]].
  - replace (p0 =? 0xF4)%N with false by (symmetry; apply N.eqb_neq; lia).
    reflexivity.
  - reflexivity.
Qed.

Lemma out_of_false lo hi b : utf8.out_of lo hi b = false -> (lo <= b <= hi)%N.
Proof.
  unfold utf8.out_of. intros H. apply orb_false_elim in H as [H1 H2].
  apply N.ltb_ge in H1, H2. lia.
Qed.

Lemma out_of_in lo hi b : (lo <= b <= hi)%N -> utf8.out_of lo hi b = false.
Proof.
  intros H. unfold utf8.out_of. apply orb_false_intro; apply N.ltb_ge; lia.
Qed.

Lemma EncodeRune_2 c0 c1 :
  (0xC2 <= byte_val c0 < 0xE0)%N -> (0x80 <= byte_val c1 <= 0xBF)%N ->
  utf8.EncodeRune
    (N.lor (N.shiftl (N.land (byte_val c0) utf8.mask2) 6) (N.land (byte_val c1) utf8.maskx))
  = String c0 (String c1 "").
Proof.
  intros H0 H1. unfold utf8.mask2, utf8.maskx. rewrite rune2_arith.
  set (p0 := byte_val c0) in *. set (b1 := byte_val c1) in *.
  remember (p0 mod 32 * 64 + b1 mod 64)%N as r eqn:Hr.
  unfold utf8.EncodeRune, utf8.rune1Max, utf8.rune2Max, utf8.t2, utf8.tx, utf8.maskx.
  decide_tests. cbn [andb orb].
  f_equal; [| f_equal]; apply byte_eq.
  - rewrite lead2_arith by lia. fold p0. lia.
  - rewrite cont_arith. fold b1. lia.
Qed.

Lemma EncodeRune_3 c0 c1 c2 :
  (0xE0 <= byte_val c0 < 0xF0)%N ->
  (0x80 <= byte_val c1 <= 0xBF)%N ->
  (byte_val c0 = 0xE0 -> 0xA0 <= byte_val c1)%N ->
  (byte_val c0 = 0xED -> byte_val c1 <= 0x9F)%N ->
  (0x80 <= byte_val c2 <= 0xBF)%N ->
  utf8.EncodeRune
    (N.lor (N.lor (N.shiftl (N.land (byte_val c0) utf8.mask3) 12)
                  (N.shiftl (N.land (byte_val c1) utf8.maskx) 6))
           (N.land (byte_val c2) utf8.maskx))
  = String c0 (String c1 (String c2 "")).
Proof.
  intros H0 H1 HE0 HED H2. unfold utf8.mask3, utf8.maskx. rewrite rune3_arith.
  set (p0 := byte_val c0) in *. set (b1 := byte_val c1) in *.
  set (b2 := byte_val c2) in *.
  remember (p0 mod 16 * 4096 + b1 mod 64 * 64 + b2 mod 64)%N as r eqn:Hr.
  unfold utf8.EncodeRune, utf8.rune1Max, utf8.rune2Max, utf8.rune3Max,
    utf8.MaxRune, utf8.surrogateMin, utf8.surrogateMax.
  assert (Hlo : (0x800 <= r)%N) by lia.
  assert (Hhi : (r <= 0xFFFF)%N) by lia.
  assert (Hsur : (r < 0xD800 \/ 0xDFFF < r)%N) by lia.
  replace (r <=? 0x7F)%N with false by (symmetry; apply N.leb_gt; lia).
  replace (r <=? 0x7FF)%N with false by (symmetry; apply N.leb_gt; lia).
  replace (0x10FFFF <? r)%N with false by (symmetry; apply N.ltb_ge; lia).
  replace ((0xD800 <=? r)%N && (r <=? 0xDFFF)%N) with false.
  2:{ symmetry. apply andb_false_iff. rewrite N.leb_gt, N.leb_gt. lia. }
  replace (r <=? 0xFFFF)%N with true by (symmetry; apply N.leb_le; lia).
  cbn [orb]. unfold utf8.encode3, utf8.t3, utf8.tx, utf8.maskx.
  f_equal; [| f_equal; [| f_equal]]; apply byte_eq.
  - rewrite lead3_arith by lia. fold p0. lia.
  - rewrite cont_arith, shiftr_6. fold b1. lia.
  - rewrite cont_arith. fold b2. lia.
Qed.

Lemma EncodeRune_4 c0 c1 c2 c3 :
  (0xF0 <= byte_val c0 <= 0xF4)%N ->
  (0x80 <= byte_val c1 <= 0xBF)%N ->
  (byte_val c0 = 0xF0 -> 0x90 <= byte_val c1)%N ->
  (byte_val c0 = 0xF4 -> byte_val c1 <= 0x8F)%N ->
  (0x80 <= byte_val c2 <= 0xBF)%N ->
  (0x80 <= byte_val c3 <= 0xBF)%N ->
  utf8.EncodeRune
    (N.lor (N.lor (N.lor (N.shiftl (N.land (byte_val c0) utf8.mask4) 18)
                         (N.shiftl (N.land (byte_val c1) utf8.maskx) 12))
                  (N.shiftl (N.land (byte_val c2) utf8.maskx) 6))
           (N.land (byte_val c3) utf8.maskx))
  = String c0 (String c1 (String c2 (String c3 ""))).
Proof.
  intros H0 H1 HF0 HF4 H2 H3. unfold utf8.mask4, utf8.maskx. rewrite rune4_arith.
  set (p0 := byte_val c0) in *. set (b1 := byte_val c1) in *.
  set (b2 := byte_val c2) in *. set (b3 := byte_val c3) in *.
  remember (p0 mod 8 * 262144 + b1 mod 64 * 4096 + b2 mod 64 * 64 + b3 mod 64)%N
    as r eqn:Hr.
  unfold utf8.EncodeRune, utf8.rune1Max, utf8.rune2Max, utf8.rune3Max,
    utf8.MaxRune, utf8.surrogateMin, utf8.surrogateMax.
  assert (Hlo : (0x10000 <= r)%N) by lia.
  assert (Hhi : (r <= 0x10FFFF)%N) by lia.
  replace (r <=? 0x7F)%N with false by (symmetry; apply N.leb_gt; lia).
  replace (r <=? 0x7FF)%N with false by (symmetry; apply N.leb_gt; lia).
  replace (0x10FFFF <? r)%N with false by (symmetry; apply N.ltb_ge; lia).
  replace (r <=? 0xDFFF)%N with false by (symmetry; apply N.leb_gt; lia).
  replace (r <=? 0xFFFF)%N with false by (symmetry; apply N.leb_gt; lia).
  rewrite andb_false_r. cbn [orb]. unfold utf8.t4, utf8.tx, utf8.maskx.
  f_equal; [| f_equal; [| f_equal; [| f_equal]]]; apply byte_eq.
  - rewrite lead4_arith by lia. fold p0. lia.
  - rewrite cont_arith, shiftr_12. fold b1. lia.
  - rewrite cont_arith, shiftr_6. fold b2. lia.
  - rewrite cont_arith. fold b3. lia.
Qed.

(** A position of a string that starts at or above [RuneSelf] either fails to
    decode, or holds a well-formed sequence of two to four bytes that
    [EncodeRune] gives back, whatever follows it. *)
Lemma DecodeRune_multibyte c0 rest r size :
  (0x80 <= byte_val c0)%N ->
  utf8.DecodeRune (String c0 rest) = (r, size) ->
  (r = utf8.RuneError /\ size = 1%nat) \/
  exists tl,
    String.length tl = (size - 1)%nat /\ (2 <= size <= 4)%nat /\
    rest = tl +:+ skip (size - 1) rest /\
    take_str size (String c0 rest) = String c0 tl /\
    utf8.EncodeRune r = String c0 tl /\
    (forall t, utf8.DecodeRune (String c0 tl +:+ t) = (r, size)).
Proof.
  intros Hc0. unfold utf8.DecodeRune at 1.
  assert (Hself : (byte_val c0 <? utf8.RuneSelf)%N = false)
    by (apply N.ltb_ge; exact Hc0).
  rewrite Hself.
  destruct (utf8.first (byte_val c0)) as [[sz [lo hi]]|] eqn:Hf;
    [| intros [= <- <-]; left; split; reflexivity].
  destruct rest as [|c1 p2]; [intros [= <- <-]; left; split; reflexivity |].
  destruct (utf8.out_of lo hi (byte_val c1)) eqn:Ho1;
    [intros [= <- <-]; left; split; reflexivity |].
  pose proof (first_spec _ _ _ _ Hf) as [Hrange Hsz].
  pose proof (out_of_false _ _ _ Ho1) as Hb1.
  destruct Hsz as [[-> H0] | [(-> & H0 & HE0 & HED) | (-> & H0 & HF0 & HF4)]].
  - (* two bytes *)
    cbn [Nat.leb]. intros [= <- <-]. right. exists (String c1 "").
    repeat split; try reflexivity; try lia.
    + apply EncodeRune_2; lia.
    + intros t. norm_app. unfold utf8.DecodeRune.
      rewrite Hself, Hf, Ho1. reflexivity.
  - (* three bytes *)
    cbn [Nat.leb].
    destruct p2 as [|c2 p3]; [intros [= <- <-]; left; split; reflexivity |].
    destruct (utf8.out_of utf8.locb utf8.hicb (byte_val c2)) eqn:Ho2;
      [intros [= <- <-]; left; split; reflexivity |].
    pose proof (out_of_false _ _ _ Ho2) as Hb2. unfold utf8.locb, utf8.hicb in Hb2.
    intros [= <- <-]. right. exists (String c1 (String c2 "")).
    repeat split; try reflexivity; try lia.
    + apply EncodeRune_3; lia.
    + intros t. norm_app. unfold utf8.DecodeRune.
      rewrite Hself, Hf, Ho1, Ho2. reflexivity.
  - (* four bytes *)
    cbn [Nat.leb].
    destruct p2 as [|c2 p3]; [intros [= <- <-]; left; split; reflexivity |].
    destruct (utf8.out_of utf8.locb utf8.hicb (byte_val c2)) eqn:Ho2;
      [intros [= <- <-]; left; split; reflexivity |].
    destruct p3 as [|c3 p4]; [intros [= <- <-]; left; split; reflexivity |].
    destruct (utf8.out_of utf8.locb utf8.hicb (byte_val c3)) eqn:Ho3;
      [intros [= <- <-]; left; split; reflexivity |].
    pose proof (out_of_false _ _ _ Ho2) as Hb2. unfold utf8.locb, utf8.hicb in Hb2.
    pose proof (out_of_false _ _ _ Ho3) as Hb3. unfold utf8.locb, utf8.hicb in Hb3.
    intros [= <- <-]. right. exists (String c1 (String c2 (String c3 ""))).
    repeat split; try reflexivity; try lia.
    + apply EncodeRune_4; lia.
    + intros t. norm_app. unfold utf8.DecodeRune.
      rewrite Hself, Hf, Ho1, Ho2, Ho3. reflexivity.
Qed.

Lemma DecodeRune_ascii c rest :
  (byte_val c <? utf8.RuneSelf)%N = true ->
  utf8.DecodeRune (String c rest) = (byte_val c, 1%nat).
Proof. intros H. unfold utf8.DecodeRune. rewrite H. reflexivity. Qed.

Lemma ValidString_unfold c rest :
  utf8.ValidString (String c rest) =
  (let '(r, size) := utf8.DecodeRune (String c rest) in
   if (r =? utf8.RuneError)%N && (size =? 1)%nat then false
   else utf8.ValidString (skip (size - 1) rest)).
Proof. reflexivity. Qed.

Lemma ValidString_ascii c rest :
  (byte_val c <? utf8.RuneSelf)%N = true ->
  utf8.ValidString (String c rest) = utf8.ValidString rest.
Proof.
  intros H. rewrite ValidString_unfold, (DecodeRune_ascii _ _ H).
  apply N.ltb_lt in H. unfold utf8.RuneSelf in H.
  replace (byte_val c =? utf8.RuneError)%N with false
    by (symmetry; apply N.eqb_neq; unfold utf8.RuneError; lia).
  reflexivity.
Qed.

(** Well-formed sequences of two, three and four bytes are skipped by
    [ValidString]. *)
Lemma ValidString_seq2 c0 c1 x :
  (0xC2 <= byte_val c0 < 0xE0)%N -> (0x80 <= byte_val c1 <= 0xBF)%N ->
  utf8.ValidString (String c0 (String c1 x)) = utf8.ValidString x.
Proof.
  intros H0 H1. rewrite ValidString_unfold. unfold utf8.DecodeRune.
  replace (byte_val c0 <? utf8.RuneSelf)%N with false
    by (symmetry; apply N.ltb_ge; unfold utf8.RuneSelf; lia).
  rewrite (first_2 _ H0), out_of_in by (unfold utf8.locb, utf8.hicb; lia).
  cbn [Nat.leb Nat.eqb]. rewrite andb_false_r. reflexivity.
Qed.

Lemma ValidString_seq3 c0 c1 c2 x :
  (0xE0 <= byte_val c0 < 0xF0)%N ->
  (0x80 <= byte_val c1 <= 0xBF)%N ->
  (byte_val c0 = 0xE0 -> 0xA0 <= byte_val c1)%N ->
  (byte_val c0 = 0xED -> byte_val c1 <= 0x9F)%N ->
  (0x80 <= byte_val c2 <= 0xBF)%N ->
  utf8.ValidString (String c0 (String c1 (String c2 x))) = utf8.ValidString x.
Proof.
  intros H0 H1 HE0 HED H2. rewrite ValidString_unfold. unfold utf8.DecodeRune.
  replace (byte_val c0 <? utf8.RuneSelf)%N with false
    by (symmetry; apply N.ltb_ge; unfold utf8.RuneSelf; lia).
  rewrite (first_3 _ H0).
  rewrite out_of_in.
  2:{ unfold utf8.locb, utf8.hicb.
      destruct (N.eqb_spec (byte_val c0) 0xE0); destruct (N.eqb_spec (byte_val c0) 0xED);
        lia. }
  rewrite out_of_in by (unfold utf8.locb, utf8.hicb; lia).
  cbn [Nat.leb Nat.eqb]. rewrite andb_false_r. reflexivity.
Qed.

Lemma ValidString_seq4 c0 c1 c2 c3 x :
  (0xF0 <= byte_val c0 <= 0xF4)%N ->
  (0x80 <= byte_val c1 <= 0xBF)%N ->
  (byte_val c0 = 0xF0 -> 0x90 <= byte_val c1)%N ->
  (byte_val c0 = 0xF4 -> byte_val c1 <= 0x8F)%N ->
  (0x80 <= byte_val c2 <= 0xBF)%N ->
  (0x80 <= byte_val c3 <= 0xBF)%N ->
  utf8.ValidString (String c0 (String c1 (String c2 (String c3 x)))) = utf8.ValidString x.
Proof.
  intros H0 H1 HF0 HF4 H2 H3. rewrite ValidString_unfold. unfold utf8.DecodeRune.
  replace (byte_val c0 <? utf8.RuneSelf)%N with false
    by (symmetry; apply N.ltb_ge; unfold utf8.RuneSelf; lia).
  rewrite (first_4 _ H0).
  rewrite out_of_in.
  2:{ unfold utf8.locb, utf8.hicb.
      destruct (N.eqb_spec (byte_val c0) 0xF0); destruct (N.eqb_spec (byte_val c0) 0xF4);
        lia. }
  rewrite !out_of_in by (unfold utf8.locb, utf8.hicb; lia).
  cbn [Nat.leb Nat.eqb]. rewrite andb_false_r. reflexivity.
Qed.

(** Whatever the rune, what [EncodeRune] writes is a well-formed sequence. *)
Lemma ValidString_EncodeRune r x :
  utf8.ValidString (utf8.EncodeRune r +:+ x) = utf8.ValidString x.
Proof.
  unfold utf8.EncodeRune, utf8.rune1Max, utf8.rune2Max, utf8.rune3Max,
    utf8.MaxRune, utf8.surrogateMin, utf8.surrogateMax.
  destruct (N.leb_spec r 0x7F) as [H1 | H1].
  { norm_app. apply ValidString_ascii. rewrite byte_val_byte, land_0xFF.
    apply N.ltb_lt. unfold utf8.RuneSelf. lia. }
  destruct (N.leb_spec r 0x7FF) as [H2 | H2].
  { norm_app. unfold utf8.t2, utf8.tx, utf8.maskx.
    apply ValidString_seq2; rewrite byte_val_byte.
    - rewrite lead2_arith by lia. lia.
    - rewrite cont_arith. lia. }
  destruct ((0x10FFFF <? r)%N || (0xD800 <=? r)%N && (r <=? 0xDFFF)%N) eqn:Hbad.
  { reflexivity. }
  apply orb_false_elim in Hbad as [Hmax Hsur]. apply N.ltb_ge in Hmax.
  assert (Hsur' : (r < 0xD800 \/ 0xDFFF < r)%N).
  { apply andb_false_iff in Hsur as [H | H]; apply N.leb_gt in H; lia. }
  destruct (N.leb_spec r 0xFFFF) as [H3 | H3].
  { unfold utf8.encode3, utf8.t3, utf8.tx, utf8.maskx. norm_app.
    apply ValidString_seq3; rewrite ?byte_val_byte;
      rewrite ?lead3_arith, ?cont_arith, ?shiftr_6 by lia; lia. }
  unfold utf8.t4, utf8.tx, utf8.maskx. norm_app.
  apply ValidString_seq4; rewrite ?byte_val_byte;
    rewrite ?lead4_arith, ?cont_arith, ?shiftr_6, ?shiftr_12 by lia; lia.
Qed.

(* ===================================================================== *)
(** * Coercion to valid UTF-8 *)
(* ===================================================================== *)

Lemma coerce_unfold c rest :
  coerce (String c rest) =
  (if (byte_val c <? utf8.RuneSelf)%N then String c (coerce rest)
   else
     let '(r, size) := utf8.DecodeRune (String c rest) in
     if (r =? utf8.RuneError)%N && (size =? 1)%nat then
       utf8.EncodeRune utf8.RuneError +:+ coerce rest
     else take_str size (String c rest) +:+ coerce (skip (size - 1) rest)).
Proof. reflexivity. Qed.

(** A string that is valid UTF-8 is not changed. *)
Lemma coerce_valid_bounded (n : nat) :
  forall s, (String.length s <= n)%nat -> utf8.ValidString s = true -> coerce s = s.
Proof.
  induction n as [|n IH]; intros [|c rest] Hlen Hvalid; try reflexivity.
  { cbn in Hlen. lia. }
  cbn [String.length] in Hlen. rewrite coerce_unfold.
  destruct (byte_val c <? utf8.RuneSelf)%N eqn:Hself.
  - rewrite (ValidString_ascii _ _ Hself) in Hvalid.
    rewrite (IH rest) by (lia || assumption). reflexivity.
  - rewrite ValidString_unfold in Hvalid.
    destruct (utf8.DecodeRune (String c rest)) as [r size] eqn:Hdec.
    apply N.ltb_ge in Hself. unfold utf8.RuneSelf in Hself.
    destruct (DecodeRune_multibyte _ _ _ _ Hself Hdec)
      as [[-> ->] | (tl & Htl & Hsize & Hrest' & Htake & Henc & Hdec')].
    + discriminate Hvalid.
    + assert (Hnot1 : (size =? 1)%nat = false) by (apply Nat.eqb_neq; lia).
      rewrite Hnot1, andb_false_r in Hvalid |- *.
      rewrite (IH (skip (size - 1) rest)).
      * rewrite Htake. norm_app. rewrite <- Hrest'. reflexivity.
      * pose proof (skip_length_le (size - 1) rest). lia.
      * exact Hvalid.
Qed.

Lemma coerce_valid s : utf8.ValidString s = true -> coerce s = s.
Proof. apply (coerce_valid_bounded (String.length s)). lia. Qed.

(** What comes back from the encoding is valid UTF-8. *)
Lemma ValidString_coerce_bounded (n : nat) :
  forall s, (String.length s <= n)%nat -> utf8.ValidString (coerce s) = true.
Proof.
  induction n as [|n IH]; intros [|c rest] Hlen; try reflexivity.
  { cbn in Hlen. lia. }
  cbn [String.length] in Hlen. rewrite coerce_unfold.
  destruct (byte_val c <? utf8.RuneSelf)%N eqn:Hself.
  - rewrite (ValidString_ascii _ _ Hself). apply IH. lia.
  - destruct (utf8.DecodeRune (String c rest)) as [r size] eqn:Hdec.
    apply N.ltb_ge in Hself. unfold utf8.RuneSelf in Hself.
    destruct (DecodeRune_multibyte _ _ _ _ Hself Hdec)
      as [[-> ->] | (tl & Htl & Hsize & Hrest' & Htake & Henc & Hdec')].
    + change ((utf8.RuneError =? utf8.RuneError)%N && (1 =? 1)%nat) with true.
      cbv iota. rewrite ValidString_EncodeRune. apply IH. lia.
    + assert (Hnot1 : (size =? 1)%nat = false) by (apply Nat.eqb_neq; lia).
      rewrite Hnot1, andb_false_r, Htake. norm_app.
      rewrite ValidString_unfold, <- app_String, (Hdec' _), Hnot1, andb_false_r.
      rewrite (skip_app _ _ _ Htl) by lia.
      apply IH. pose proof (skip_length_le (size - 1) rest). lia.
Qed.

Lemma ValidString_coerce s : utf8.ValidString (coerce s) = true.
Proof. apply (ValidString_coerce_bounded (String.length s)). lia. Qed.

Lemma coerce_idemp s : coerce (coerce s) = coerce s.
Proof. apply coerce_valid, ValidString_coerce. Qed.

(** Only the empty string comes back empty. *)
Lemma coerce_nonempty s : s <> "" -> coerce s <> "".
Proof.
  destruct s as [|c rest]; [congruence |]. intros _. rewrite coerce_unfold.
  destruct (byte_val c <? utf8.RuneSelf)%N eqn:Hself; [discriminate |].
  destruct (utf8.DecodeRune (String c rest)) as [r size] eqn:Hdec.
  apply N.ltb_ge in Hself. unfold utf8.RuneSelf in Hself.
  destruct (DecodeRune_multibyte _ _ _ _ Hself Hdec)
    as [[-> ->] | (tl & Htl & Hsize & Hrest' & Htake & Henc & Hdec')].
  - discriminate.
  - assert (Hnot1 : (size =? 1)%nat = false) by (apply Nat.eqb_neq; lia).
    rewrite Hnot1, andb_false_r, Htake. discriminate.
Qed.

Lemma forallb_valid_coerce l :
  forallb utf8.ValidString l = true -> map coerce l = l.
Proof.
  induction l as [|x l IH]; [reflexivity |]. cbn [forallb map].
  intros H. apply andb_true_iff in H as [Hx Hl].
  rewrite (coerce_valid _ Hx), (IH Hl). reflexivity.
Qed.

Lemma coerce_habit_valid h : valid_habit h = true -> coerce_habit h = h.
Proof.
  unfold valid_habit, coerce_habit. intros H.
  repeat (apply andb_true_iff in H as [H ?]).
  destruct h as [n t a o]. cbn [Name Type_ Attendees Owner] in *.
  rewrite !coerce_valid by assumption.
  destruct a as [l|]; cbn [option_map] in *; [| reflexivity].
  change (elements (Some l)) with l in *.
  rewrite forallb_valid_coerce by assumption. reflexivity.
Qed.

Lemma coerce_habit_idemp h : coerce_habit (coerce_habit h) = coerce_habit h.
Proof.
  unfold coerce_habit. cbn [Name Type_ Attendees Owner]. rewrite !coerce_idemp.
  destruct (Attendees h) as [l|]; cbn [option_map]; [| reflexivity].
  rewrite map_map.
  rewrite (map_ext (fun x => coerce (coerce x)) coerce) by (intros x; apply coerce_idemp).
  reflexivity.
Qed.

(** A habit that came back from the encoding stays as it is when a valid
    string is appended to its attendees and it is encoded and decoded once
    more. *)
Lemma coerce_habit_append h y :
  coerce_habit h = h -> coerce y = y ->
  coerce_habit (mkHabit (Name h) (Type_ h) (append (Attendees h) y) (Owner h))
  = mkHabit (Name h) (Type_ h) (Some (elements (Attendees h) ++ [y])%list) (Owner h).
Proof.
  destruct h as [n t a o]. unfold coerce_habit. cbn [Name Type_ Attendees Owner].
  intros [= Hn Ht Ha Ho] Hy. rewrite Hn, Ht, Ho. unfold append.
  cbn [option_map]. rewrite map_app. cbn [map]. rewrite Hy.
  destruct a as [l|]; cbn [option_map] in Ha.
  - injection Ha as Ha. change (elements (Some l)) with l.
    change (default [] (Some l)) with l. rewrite Ha. reflexivity.
  - reflexivity.
Qed.

Lemma coerce_habit_owner h x :
  coerce_habit h = h -> coerce x = x ->
  coerce_habit (mkHabit (Name h) (Type_ h) (Attendees h) x)
  = mkHabit (Name h) (Type_ h) (Attendees h) x.
Proof.
  destruct h as [n t a o]. unfold coerce_habit. cbn [Name Type_ Attendees Owner].
  intros [= Hn Ht Ha Ho] Hx. rewrite Hn, Ht, Ha, Hx. reflexivity.
Qed.

(* ===================================================================== *)
(** * encoding/json: a string literal read back *)
(* ===================================================================== *)

Lemma Ascii_eqb_byte_val c d : Ascii.eqb c d = (byte_val c =? byte_val d)%N.
Proof.
  destruct (Ascii.eqb_spec c d) as [-> | Hne].
  - symmetry. apply N.eqb_refl.
  - symmetry. apply N.eqb_neq. intros H. apply Hne.
    rewrite <- (ascii_N_embedding c), <- (ascii_N_embedding d).
    unfold byte_val in H. rewrite H. reflexivity.
Qed.

Lemma htmlSafeSet_true b :
  json.htmlSafeSet b = true ->
  (0x20 <= b /\ b <> 0x22 /\ b <> 0x26 /\ b <> 0x3C /\ b <> 0x3E /\ b <> 0x5C)%N.
Proof.
  unfold json.htmlSafeSet. intros H.
  apply andb_true_iff in H as [H1 H2]. apply negb_true_iff in H2.
  repeat (apply orb_false_elim in H2 as [H2 ?]).
  repeat match goal with
  | H : (_ =? _)%N = false |- _ => apply N.eqb_neq in H
  end.
  apply N.leb_le in H1. repeat split; assumption.
Qed.

Lemma unquote_unfold c rest :
  json.unquote (String c rest) =
  (let b := byte_val c in
   if Ascii.eqb c backslash then
     match rest with
     | "" => None
     | String e r2 =>
       let eb := byte_val e in
       if (eb =? 0x22)%N || (eb =? 0x5C)%N || (eb =? 0x2F)%N then
         json.emit (String e "") (json.unquote r2)
       else if (eb =? 0x62)%N then json.emit (String (byte 0x08) "") (json.unquote r2)
       else if (eb =? 0x66)%N then json.emit (String (byte 0x0C) "") (json.unquote r2)
       else if (eb =? 0x6E)%N then json.emit (String (byte 0x0A) "") (json.unquote r2)
       else if (eb =? 0x72)%N then json.emit (String (byte 0x0D) "") (json.unquote r2)
       else if (eb =? 0x74)%N then json.emit (String (byte 0x09) "") (json.unquote r2)
       else if (eb =? 0x75)%N then
         match json.getu4 (String c rest) with
         | None => None
         | Some rr =>
           let r6 := skip 4 r2 in
           if utf16.IsSurrogate rr then
             let dec := utf16.DecodeRune rr (json.getu4 r6) in
             if negb (dec =? utf16.replacementChar)%N then
               json.emit (utf8.EncodeRune dec) (json.unquote (skip 4 (skip 2 r6)))
             else
               json.emit (utf8.EncodeRune utf16.replacementChar) (json.unquote r6)
           else json.emit (utf8.EncodeRune rr) (json.unquote r6)
         end
       else None
     end
   else if Ascii.eqb c dquote then Some ("", rest)
   else if (b <? 0x20)%N then None
   else if (b <? utf8.RuneSelf)%N then json.emit (String c "") (json.unquote rest)
   else
     let '(rr, size) := utf8.DecodeRune (String c rest) in
     json.emit (utf8.EncodeRune rr) (json.unquote (skip (size - 1) rest))).
Proof. reflexivity. Qed.

(** A byte written as it is. *)
Lemma unquote_safe c rest :
  (byte_val c <? utf8.RuneSelf)%N = true -> json.htmlSafeSet (byte_val c) = true ->
  json.unquote (String c rest) = json.emit (String c "") (json.unquote rest).
Proof.
  intros Hself Hsafe. rewrite unquote_unfold. cbv zeta.
  apply htmlSafeSet_true in Hsafe.
  rewrite !Ascii_eqb_byte_val.
  change (byte_val backslash) with 0x5C%N. change (byte_val dquote) with 0x22%N.
  rewrite Hself.
  replace (byte_val c =? 0x5C)%N with false by (symmetry; apply N.eqb_neq; lia).
  replace (byte_val c =? 0x22)%N with false by (symmetry; apply N.eqb_neq; lia).
  replace (byte_val c <? 0x20)%N with false by (symmetry; apply N.ltb_ge; lia).
  reflexivity.
Qed.

(** A byte written as an escape. *)
Lemma unquote_escape_byte c rest :
  (byte_val c <? utf8.RuneSelf)%N = true -> json.htmlSafeSet (byte_val c) = false ->
  json.unquote (json.escape_byte c +:+ rest)
  = json.emit (String c "") (json.unquote rest).
Proof.
  destruct c as [[] [] [] [] [] [] [] []]; intros Hself Hsafe;
    try discriminate Hself; try discriminate Hsafe; reflexivity.
Qed.

(** A byte at or above [RuneSelf]. *)
Lemma unquote_multibyte c rest :
  (byte_val c <? utf8.RuneSelf)%N = false ->
  json.unquote (String c rest)
  = let '(rr, size) := utf8.DecodeRune (String c rest) in
    json.emit (utf8.EncodeRune rr) (json.unquote (skip (size - 1) rest)).
Proof.
  intros Hself. rewrite unquote_unfold. cbv zeta.
  rewrite !Ascii_eqb_byte_val.
  change (byte_val backslash) with 0x5C%N. change (byte_val dquote) with 0x22%N.
  rewrite Hself. unfold utf8.RuneSelf in Hself. apply N.ltb_ge in Hself.
  replace (byte_val c =? 0x5C)%N with false by (symmetry; apply N.eqb_neq; lia).
  replace (byte_val c =? 0x22)%N with false by (symmetry; apply N.eqb_neq; lia).
  replace (byte_val c <? 0x20)%N with false by (symmetry; apply N.ltb_ge; lia).
  reflexivity.
Qed.

(** The escapes written for a byte that is not UTF-8 and for the two line
    separators. *)
Lemma unquote_ufffd rest :
  json.unquote (String backslash "ufffd" +:+ rest)
  = json.emit (utf8.EncodeRune utf8.RuneError) (json.unquote rest).
Proof. reflexivity. Qed.

Lemma unquote_u2028 rest :
  json.unquote (String backslash "u202" +:+ String (json.hex_at (N.land 0x2028 0xF)) "" +:+ rest)
  = json.emit (utf8.EncodeRune 0x2028) (json.unquote rest).
Proof. reflexivity. Qed.

Lemma unquote_u2029 rest :
  json.unquote (String backslash "u202" +:+ String (json.hex_at (N.land 0x2029 0xF)) "" +:+ rest)
  = json.emit (utf8.EncodeRune 0x2029) (json.unquote rest).
Proof. reflexivity. Qed.

Lemma encode_runes_unfold c rest :
  json.encode_runes (String c rest) =
  (let b := byte_val c in
   if (b <? utf8.RuneSelf)%N then
     (if json.htmlSafeSet b then String c "" else json.escape_byte c)
       +:+ json.encode_runes rest
   else
     let '(r, size) := utf8.DecodeRune (String c rest) in
     if (r =? utf8.RuneError)%N && (size =? 1)%nat then
       String backslash "ufffd" +:+ json.encode_runes rest
     else if (r =? 0x2028)%N || (r =? 0x2029)%N then
       String backslash "u202" +:+ String (json.hex_at (N.land r 0xF)) ""
         +:+ json.encode_runes (skip (size - 1) rest)
     else
       take_str size (String c rest) +:+ json.encode_runes (skip (size - 1) rest)).
Proof. reflexivity. Qed.

Lemma emit_Some w out rest :
  json.emit w (Some (out, rest)) = Some (w +:+ out, rest).
Proof. reflexivity. Qed.

Lemma emit_inv w k out rest :
  json.emit w k = Some (out, rest) ->
  exists out', k = Some (out', rest) /\ out = w +:+ out'.
Proof.
  destruct k as [[out' rest']|]; [| discriminate].
  cbn [json.emit]. intros [= <- <-]. eauto.
Qed.

(** What [encodeState.string] writes between the quotes, followed by the
    closing quote, reads back as the coerced string. *)
Lemma unquote_encode_runes_bounded (n : nat) :
  forall s t, (String.length s <= n)%nat ->
  json.unquote (json.encode_runes s +:+ String dquote t) = Some (coerce s, t).
Proof.
  induction n as [|n IH]; intros [|c rest] t Hlen; try reflexivity.
  { cbn in Hlen. lia. }
  cbn [String.length] in Hlen. assert (Hrest : (String.length rest <= n)%nat) by lia.
  rewrite encode_runes_unfold, coerce_unfold. cbv zeta.
  destruct (byte_val c <? utf8.RuneSelf)%N eqn:Hself.
  - (* a single byte *)
    rewrite app_assoc_str.
    destruct (json.htmlSafeSet (byte_val c)) eqn:Hsafe.
    + norm_app. rewrite (unquote_safe _ _ Hself Hsafe), (IH _ _ Hrest), emit_Some.
      reflexivity.
    + rewrite (unquote_escape_byte _ _ Hself Hsafe), (IH _ _ Hrest), emit_Some.
      reflexivity.
  - destruct (utf8.DecodeRune (String c rest)) as [r size] eqn:Hdec.
    apply N.ltb_ge in Hself as Hge. unfold utf8.RuneSelf in Hge.
    destruct (DecodeRune_multibyte _ _ _ _ Hge Hdec)
      as [[-> ->] | (tl & Htl & Hsize & Hrest' & Htake & Henc & Hdec')].
    + (* not UTF-8 *)
      cbn [N.eqb andb Nat.eqb]. change (utf8.RuneError =? utf8.RuneError)%N with true.
      cbn [andb]. rewrite app_assoc_str, unquote_ufffd, (IH _ _ Hrest), emit_Some.
      reflexivity.
    + assert (Hnot1 : (size =? 1)%nat = false) by (apply Nat.eqb_neq; lia).
      rewrite Hnot1, andb_false_r.
      assert (Hskip : (String.length (skip (size - 1) rest) <= n)%nat)
        by (pose proof (skip_length_le (size - 1) rest); lia).
      rewrite Htake.
      destruct ((r =? 0x2028)%N || (r =? 0x2029)%N) eqn:Hsep.
      * (* line and paragraph separators *)
        rewrite <- Henc.
        apply orb_true_iff in Hsep as [Hr | Hr]; apply N.eqb_eq in Hr; subst r.
        -- rewrite !app_assoc_str, unquote_u2028, (IH _ _ Hskip), emit_Some. reflexivity.
        -- rewrite !app_assoc_str, unquote_u2029, (IH _ _ Hskip), emit_Some. reflexivity.
      * (* a well-formed sequence, copied *)
        rewrite app_assoc_str. rewrite app_String at 1.
        rewrite (unquote_multibyte _ _ Hself).
        rewrite <- app_String, (Hdec' _).
        rewrite (skip_app _ _ _ Htl) by lia.
        rewrite (IH _ _ Hskip), emit_Some, Henc. reflexivity.
Qed.

Lemma unquote_encode_runes s t :
  json.unquote (json.encode_runes s +:+ String dquote t) = Some (coerce s, t).
Proof. apply (unquote_encode_runes_bounded (String.length s)). lia. Qed.

(** Closes a case of [unquote_valid_bounded]: the step wrote [w] and went on
    with a suffix of the input. *)
Local Ltac emitted IH tac :=
  let out' := fresh "out'" in
  let Hk := fresh "Hk" in
  intros Hu; apply emit_inv in Hu as (out' & Hk & ->);
  apply IH in Hk; [| tac];
  first [ rewrite ValidString_EncodeRune; exact Hk
        | norm_app; rewrite ValidString_ascii; [exact Hk |] ].

(** The text of a string literal is valid UTF-8. *)
Lemma unquote_valid_bounded (n : nat) :
  forall s out rest, (String.length s <= n)%nat ->
  json.unquote s = Some (out, rest) -> utf8.ValidString out = true.
Proof.
  induction n as [|n IH]; intros [|c s] out rest Hlen; try discriminate.
  { cbn in Hlen. lia. }
  cbn [String.length] in Hlen. rewrite unquote_unfold. cbv zeta.
  destruct (Ascii.eqb c backslash).
  - destruct s as [|e r2]; [discriminate |]. cbn [String.length] in Hlen.
    assert (Hr2 : forall k, (String.length (skip k r2) <= n)%nat)
      by (intros k; pose proof (skip_length_le k r2); lia).
    destruct ((byte_val e =? 0x22)%N || (byte_val e =? 0x5C)%N || (byte_val e =? 0x2F)%N)
      eqn:He.
    { emitted IH ltac:(lia).
      apply N.ltb_lt. unfold utf8.RuneSelf.
      repeat (apply orb_true_iff in He as [He | He]); apply N.eqb_eq in He; lia. }
    destruct (byte_val e =? 0x62)%N; [emitted IH ltac:(lia); reflexivity |].
    destruct (byte_val e =? 0x66)%N; [emitted IH ltac:(lia); reflexivity |].
    destruct (byte_val e =? 0x6E)%N; [emitted IH ltac:(lia); reflexivity |].
    destruct (byte_val e =? 0x72)%N; [emitted IH ltac:(lia); reflexivity |].
    destruct (byte_val e =? 0x74)%N; [emitted IH ltac:(lia); reflexivity |].
    destruct (byte_val e =? 0x75)%N; [| discriminate].
    destruct (json.getu4 _) as [rr|]; [| discriminate].
    destruct (utf16.IsSurrogate rr).
    + destruct (negb _).
      * emitted IH ltac:(pose proof (skip_length_le 4 (skip 2 (skip 4 r2)));
                         pose proof (skip_length_le 2 (skip 4 r2));
                         pose proof (Hr2 4%nat); lia).
      * emitted IH ltac:(apply Hr2).
    + emitted IH ltac:(apply Hr2).
  - destruct (Ascii.eqb c dquote); [intros [= <- <-]; reflexivity |].
    destruct (byte_val c <? 0x20)%N; [discriminate |].
    destruct (byte_val c <? utf8.RuneSelf)%N eqn:Hself.
    + emitted IH ltac:(lia). exact Hself.
    + destruct (utf8.DecodeRune (String c s)) as [rr size].
      emitted IH ltac:(pose proof (skip_length_le (size - 1) s); lia).
Qed.

Lemma unquote_valid s out rest :
  json.unquote s = Some (out, rest) -> utf8.ValidString out = true.
Proof. apply (unquote_valid_bounded (String.length s)). lia. Qed.

(* ===================================================================== *)
(** * encoding/json: a habit read back *)
(* ===================================================================== *)

Lemma encode_string_app s t :
  json.encode_string s +:+ t = String dquote (json.encode_runes s +:+ String dquote t).
Proof. unfold json.encode_string. norm_app. rewrite app_assoc_str. reflexivity. Qed.

Lemma scan_value_string n s t :
  json.scan_value (S n) (json.encode_string s +:+ t)
  = Some (json.JString (coerce s), t).
Proof.
  rewrite encode_string_app. cbn [json.scan_value].
  change (json.skip_space (String dquote ?x)) with (String dquote x).
  cbv iota. change (Ascii.eqb dquote "{") with false.
  change (Ascii.eqb dquote "[") with false.
  change (Ascii.eqb dquote dquote) with true. cbv iota.
  rewrite unquote_encode_runes. reflexivity.
Qed.

Lemma scan_value_string' n s t :
  (1 <= n)%nat ->
  json.scan_value n (json.encode_string s +:+ t)
  = Some (json.JString (coerce s), t).
Proof. destruct n; [lia |]. intros _. apply scan_value_string. Qed.

Lemma scan_elems_strings (l : list string) :
  forall x n t, (List.length l + 2 <= n)%nat ->
  json.scan_elems n
    (json.encode_string x +:+ json.encode_elems false l +:+ String "]" t)
  = Some (map (fun s => json.JString (coerce s)) (x :: l), t).
Proof.
  induction l as [|y l IH]; intros x n t Hn.
  - destruct n as [|n]; [cbn in Hn; lia |].
    cbn [json.scan_elems]. rewrite scan_value_string' by (cbn in Hn; lia).
    cbn [json.encode_elems]. norm_app.
    change (json.skip_space (String "]" t)) with (String "]"%char t).
    reflexivity.
  - destruct n as [|n]; [cbn in Hn; lia |].
    cbn [json.scan_elems]. rewrite scan_value_string' by (cbn in Hn; lia).
    cbn [json.encode_elems]. rewrite !app_assoc_str. norm_app.
    change (json.skip_space (String "," ?r)) with (String ","%char r).
    cbv iota. change (Ascii.eqb "," ",") with true. cbv iota.
    rewrite (IH y n t) by (cbn in Hn |- *; lia).
    reflexivity.
Qed.

(** A slice read back: [null], or an array of strings. *)
Lemma scan_value_slice (a : option (list string)) n t :
  (List.length (elements a) + 2 <= n)%nat ->
  json.scan_value (S n) (json.encode_slice a +:+ t)
  = Some (match a with
          | None => json.JNull
          | Some l => json.JArray (map (fun s => json.JString (coerce s)) l)
          end, t).
Proof.
  intros Hn. destruct a as [[|x l]|]; cbn [json.encode_slice json.encode_elems].
  - reflexivity.
  - rewrite !app_assoc_str. norm_app. rewrite encode_string_app.
    cbn [json.scan_value].
    change (json.skip_space (String "[" ?r)) with (String "["%char r).
    cbv iota. change (Ascii.eqb "[" "{") with false.
    change (Ascii.eqb "[" "[") with true. cbv iota.
    change (json.skip_space (String dquote ?r)) with (String dquote r).
    cbv iota. change (Ascii.eqb dquote "]") with false. cbv iota.
    rewrite <- encode_string_app.
    rewrite (scan_elems_strings l x n t) by (cbn in Hn; lia).
    reflexivity.
  - reflexivity.
Qed.

(** One member of an object, followed by a comma and more members. *)
Lemma scan_members_more n key vs v rest :
  json.scan_value n vs = Some (v, String "," rest) ->
  json.scan_members (S n) (json.encode_string key +:+ String ":" vs)
  = match json.scan_members n rest with
    | Some (ms, r) => Some ((coerce key, v) :: ms, r)
    | None => None
    end.
Proof.
  intros Hv. rewrite encode_string_app. cbn [json.scan_members].
  change (json.skip_space (String dquote ?r)) with (String dquote r).
  cbv iota. change (Ascii.eqb dquote dquote) with true. cbv iota.
  rewrite unquote_encode_runes.
  change (json.skip_space (String ":" vs)) with (String ":"%char vs).
  cbv iota. change (Ascii.eqb ":" ":") with true. cbv iota.
  rewrite Hv.
  change (json.skip_space (String "," rest)) with (String ","%char rest).
  reflexivity.
Qed.

(** The last member of an object, followed by the closing brace. *)
Lemma scan_members_last n key vs v rest :
  json.scan_value n vs = Some (v, String "}" rest) ->
  json.scan_members (S n) (json.encode_string key +:+ String ":" vs)
  = Some ([(coerce key, v)], rest).
Proof.
  intros Hv. rewrite encode_string_app. cbn [json.scan_members].
  change (json.skip_space (String dquote ?r)) with (String dquote r).
  cbv iota. change (Ascii.eqb dquote dquote) with true. cbv iota.
  rewrite unquote_encode_runes.
  change (json.skip_space (String ":" vs)) with (String ":"%char vs).
  cbv iota. change (Ascii.eqb ":" ":") with true. cbv iota.
  rewrite Hv.
  change (json.skip_space (String "}" rest)) with (String "}"%char rest).
  reflexivity.
Qed.

(** The member names of the two records are written as they are. *)
Lemma member_plain name rest :
  json.encode_runes name = name ->
  json.member name +:+ rest = json.encode_string name +:+ String ":" rest.
Proof.
  intros H. unfold json.member, json.encode_string. rewrite H. norm_app.
  rewrite !app_assoc_str. norm_app. reflexivity.
Qed.

Lemma scan_value_Marshal h n t :
  (List.length (elements (Attendees h)) + 7 <= n)%nat ->
  json.scan_value n (json.Marshal h +:+ t) = Some (habit_value h, t).
Proof.
  intros Hn. destruct n as [|n]; [lia |].
  unfold json.Marshal. rewrite !app_assoc_str. norm_app.
  rewrite (member_plain "name") by reflexivity.
  rewrite (member_plain "type") by reflexivity.
  rewrite (member_plain "attendees") by reflexivity.
  rewrite (member_plain "owner") by reflexivity.
  cbn [json.scan_value].
  change (json.skip_space (String "{" ?r)) with (String "{"%char r).
  cbv iota. change (Ascii.eqb "{" "{") with true. cbv iota.
  rewrite encode_string_app at 1.
  change (json.skip_space (String dquote ?r)) with (String dquote r).
  cbv iota. change (Ascii.eqb dquote "}") with false. cbv iota.
  destruct n as [|n]; [lia |].
  rewrite (scan_members_more n "name" _ (json.JString (coerce (Name h))) _)
    by (apply scan_value_string'; lia).
  destruct n as [|n]; [lia |].
  rewrite (scan_members_more n "type" _ (json.JString (coerce (Type_ h))) _)
    by (apply scan_value_string'; lia).
  destruct n as [|n]; [lia |].
  destruct n as [|n]; [lia |].
  rewrite (scan_members_more (S n) "attendees" _ _ _
             (scan_value_slice (Attendees h) n _ ltac:(lia))).
  rewrite (scan_members_last n "owner" _ (json.JString (coerce (Owner h))) _)
    by (apply scan_value_string'; lia).
  reflexivity.
Qed.

Lemma length_encode_string s : (2 <= String.length (json.encode_string s))%nat.
Proof.
  unfold json.encode_string. cbn [String.length]. rewrite length_app_str. cbn. lia.
Qed.

Lemma length_encode_elems b l :
  (2 * List.length l <= String.length (json.encode_elems b l))%nat.
Proof.
  revert b. induction l as [|x l IH]; intros b; cbn [json.encode_elems List.length].
  - lia.
  - rewrite !length_app_str.
    pose proof (length_encode_string x). pose proof (IH false). lia.
Qed.

Lemma length_encode_slice a :
  (List.length (elements a) <= String.length (json.encode_slice a))%nat.
Proof.
  destruct a as [l|]; cbn [json.encode_slice].
  - change (elements (Some l)) with l. rewrite !length_app_str. cbn [String.length].
    pose proof (length_encode_elems true l). lia.
  - cbn. lia.
Qed.

Lemma length_Marshal h :
  (List.length (elements (Attendees h)) + 6 <= String.length (json.Marshal h))%nat.
Proof.
  unfold json.Marshal. rewrite !length_app_str.
  pose proof (length_encode_slice (Attendees h)).
  change (String.length (json.member "name")) with 7%nat.
  cbn [String.length]. lia.
Qed.

(** The scanner accepts what [Marshal] writes and delimits its value. *)
Lemma parse_Marshal h : json.parse (json.Marshal h) = Some (habit_value h).
Proof.
  unfold json.parse.
  rewrite <- (app_nil_r_str (json.Marshal h)) at 2.
  rewrite scan_value_Marshal by (pose proof (length_Marshal h); lia).
  reflexivity.
Qed.

Lemma store_elems_strings l old :
  json.store_elems (map (fun s => json.JString (coerce s)) l) old = map coerce l.
Proof.
  revert old. induction l as [|x l IH]; intros old; [reflexivity |].
  cbn [map json.store_elems json.store_string]. rewrite IH. reflexivity.
Qed.

(** [Unmarshal] after [Marshal]: the habit with its strings coerced to valid
    UTF-8, whatever the struct held before. *)
Lemma Unmarshal_Marshal h h0 :
  json.Unmarshal (json.Marshal h) h0 = coerce_habit h.
Proof.
  unfold json.Unmarshal. rewrite parse_Marshal.
  unfold habit_value, json.store_value, coerce_habit.
  cbn [fold_left]. unfold json.store_member. cbn [fst snd].
  change (json.find_field "name" json.fields None) with (Some json.fName).
  change (json.find_field "type" json.fields None) with (Some json.fType).
  change (json.find_field "attendees" json.fields None) with (Some json.fAttendees).
  change (json.find_field "owner" json.fields None) with (Some json.fOwner).
  cbn [Name Type_ Attendees Owner json.store_string].
  destruct (Attendees h) as [l|]; cbn [json.store_slice option_map]; [| reflexivity].
  rewrite store_elems_strings. reflexivity.
Qed.

(* ===================================================================== *)
(** * encoding/json: what is decoded is valid UTF-8 *)
(* ===================================================================== *)

(** The values the scanner delimits hold valid UTF-8 only. *)
Lemma scan_valid (n : nat) :
  (forall s v r, json.scan_value n s = Some (v, r) -> valid_value v = true) /\
  (forall s vs r, json.scan_elems n s = Some (vs, r) -> forallb valid_value vs = true) /\
  (forall s ms r, json.scan_members n s = Some (ms, r) ->
     forallb (fun m => valid_value (snd m)) ms = true).
Proof.
  induction n as [|n (IHv & IHe & IHm)]; [repeat split; discriminate |].
  split; [| split]; intros s.
  - intros v r. cbn [json.scan_value].
    destruct (json.skip_space s) as [|c r0]; [discriminate |].
    destruct (Ascii.eqb c "{").
    { destruct (json.skip_space r0) as [|c' r']; [discriminate |].
      destruct (Ascii.eqb c' "}"); [intros [= <- <-]; reflexivity |].
      destruct (json.scan_members n r0) as [[ms r'']|] eqn:Hms; [| discriminate].
      intros [= <- <-]. exact (IHm _ _ _ Hms). }
    destruct (Ascii.eqb c "[").
    { destruct (json.skip_space r0) as [|c' r']; [discriminate |].
      destruct (Ascii.eqb c' "]"); [intros [= <- <-]; reflexivity |].
      destruct (json.scan_elems n r0) as [[vs r'']|] eqn:Hvs; [| discriminate].
      intros [= <- <-]. exact (IHe _ _ _ Hvs). }
    destruct (Ascii.eqb c dquote).
    { destruct (json.unquote r0) as [[str r']|] eqn:Hstr; [| discriminate].
      intros [= <- <-]. exact (unquote_valid _ _ _ Hstr). }
    destruct (Ascii.eqb c "-" || json.isDigit c).
    { destruct (json.scan_number (String c r0)) as [[lit r']|]; [| discriminate].
      intros [= <- <-]. reflexivity. }
    destruct (json.strip_prefix "true" (String c r0));
      [intros [= <- <-]; reflexivity |].
    destruct (json.strip_prefix "false" (String c r0));
      [intros [= <- <-]; reflexivity |].
    destruct (json.strip_prefix "null" (String c r0));
      [intros [= <- <-]; reflexivity | discriminate].
  - intros vs r. cbn [json.scan_elems].
    destruct (json.scan_value n s) as [[v r0]|] eqn:Hv; [| discriminate].
    destruct (json.skip_space r0) as [|c r']; [discriminate |].
    destruct (Ascii.eqb c ",").
    { destruct (json.scan_elems n r') as [[vs' r'']|] eqn:Hvs; [| discriminate].
      intros [= <- <-]. cbn [forallb]. rewrite (IHv _ _ _ Hv), (IHe _ _ _ Hvs).
      reflexivity. }
    destruct (Ascii.eqb c "]"); [| discriminate].
    intros [= <- <-]. cbn [forallb]. rewrite (IHv _ _ _ Hv). reflexivity.
  - intros ms r. cbn [json.scan_members].
    destruct (json.skip_space s) as [|q r0]; [discriminate |].
    destruct (Ascii.eqb q dquote); [| discriminate].
    destruct (json.unquote r0) as [[key r1]|]; [| discriminate].
    destruct (json.skip_space r1) as [|c r2]; [discriminate |].
    destruct (Ascii.eqb c ":"); [| discriminate].
    destruct (json.scan_value n r2) as [[v r3]|] eqn:Hv; [| discriminate].
    destruct (json.skip_space r3) as [|c' r4]; [discriminate |].
    destruct (Ascii.eqb c' ",").
    { destruct (json.scan_members n r4) as [[ms' r5]|] eqn:Hms; [| discriminate].
      intros [= <- <-]. cbn [forallb snd]. rewrite (IHv _ _ _ Hv), (IHm _ _ _ Hms).
      reflexivity. }
    destruct (Ascii.eqb c' "}"); [| discriminate].
    intros [= <- <-]. cbn [forallb snd]. rewrite (IHv _ _ _ Hv). reflexivity.
Qed.

Lemma parse_valid data v : json.parse data = Some v -> valid_value v = true.
Proof.
  unfold json.parse.
  destruct (json.scan_value _ data) as [[v' r]|] eqn:Hv; [| discriminate].
  destruct (String.eqb _ _); [| discriminate].
  intros [= <-]. exact (proj1 (scan_valid _) _ _ _ Hv).
Qed.

Lemma store_string_valid v old :
  valid_value v = true -> utf8.ValidString old = true ->
  utf8.ValidString (json.store_string v old) = true.
Proof. destruct v; cbn [json.store_string valid_value]; auto. Qed.

Lemma store_elems_valid vs :
  forall old, forallb valid_value vs = true -> forallb utf8.ValidString old = true ->
  forallb utf8.ValidString (json.store_elems vs old) = true.
Proof.
  induction vs as [|v vs IH]; intros old Hvs Hold; [reflexivity |].
  cbn [forallb json.store_elems] in *.
  apply andb_true_iff in Hvs as [Hv Hvs].
  apply andb_true_iff. split.
  - apply store_string_valid; [exact Hv |].
    destruct old as [|o old]; [reflexivity |]. cbn [hd forallb] in *.
    apply andb_true_iff in Hold as [Ho _]. exact Ho.
  - apply IH; [exact Hvs |].
    destruct old as [|o old]; [reflexivity |]. cbn [tl forallb] in *.
    apply andb_true_iff in Hold as [_ Hold]. exact Hold.
Qed.

Lemma valid_habit_intro n t a o :
  utf8.ValidString n = true -> utf8.ValidString t = true ->
  forallb utf8.ValidString (elements a) = true -> utf8.ValidString o = true ->
  valid_habit (mkHabit n t a o) = true.
Proof.
  intros Hn Ht Ha Ho. unfold valid_habit. cbn [Name Type_ Attendees Owner].
  rewrite Hn, Ht, Ha, Ho. reflexivity.
Qed.

Lemma valid_habit_elim h :
  valid_habit h = true ->
  utf8.ValidString (Name h) = true /\ utf8.ValidString (Type_ h) = true /\
  forallb utf8.ValidString (elements (Attendees h)) = true /\
  utf8.ValidString (Owner h) = true.
Proof.
  unfold valid_habit. intros H.
  repeat (apply andb_true_iff in H as [H ?]). auto.
Qed.

Lemma store_slice_valid v old :
  valid_value v = true -> forallb utf8.ValidString (elements old) = true ->
  forallb utf8.ValidString (elements (json.store_slice v old)) = true.
Proof.
  intros Hv Hold.
  destruct v as [| | | |vs|]; cbn [json.store_slice]; try assumption; try reflexivity.
  change (elements (Some ?l)) with l. apply store_elems_valid; assumption.
Qed.

Lemma store_member_valid h m :
  valid_value (snd m) = true -> valid_habit h = true ->
  valid_habit (json.store_member h m) = true.
Proof.
  intros Hm Hh. pose proof (valid_habit_elim _ Hh) as (Hn & Ht & Ha & Ho).
  unfold json.store_member.
  destruct (json.find_field (fst m) json.fields None) as [[]|]; [| | | | exact Hh];
    apply valid_habit_intro;
    auto using store_string_valid, store_slice_valid.
Qed.

Lemma store_value_valid v h :
  valid_value v = true -> valid_habit h = true ->
  valid_habit (json.store_value v h) = true.
Proof.
  destruct v as [| | | | |ms]; cbn [json.store_value valid_value]; try (intros; assumption).
  revert h. induction ms as [|m ms IH]; intros h Hms Hh; [exact Hh |].
  cbn [forallb fold_left] in *. apply andb_true_iff in Hms as [Hm Hms].
  apply IH; [exact Hms |]. apply store_member_valid; assumption.
Qed.

(** [Unmarshal] keeps a habit valid, whatever the bytes it is given. *)
Lemma Unmarshal_valid data h :
  valid_habit h = true -> valid_habit (json.Unmarshal data h) = true.
Proof.
  intros Hh. unfold json.Unmarshal.
  destruct (json.parse data) as [v|] eqn:Hv; [| exact Hh].
  apply store_value_valid; [exact (parse_valid _ _ Hv) | exact Hh].
Qed.

(* ===================================================================== *)
(** * The handlers *)
(* ===================================================================== *)

Lemma createHabit_state stub key name type_ firstAttendee owner :
  fst (createHabit stub [key; name; type_; firstAttendee; owner])
  = <[key := json.Marshal (mkHabit name type_ (Some [firstAttendee]) owner)]> stub.
Proof. reflexivity. Qed.

Lemma changeHabitOwner_state stub key owner :
  fst (changeHabitOwner stub [key; owner])
  = <[key := json.Marshal
       (let h := stored_habit stub key in
        mkHabit (Name h) (Type_ h) (Attendees h) owner)]> stub.
Proof. reflexivity. Qed.

Lemma changeHabitAttendees_state stub key attendee :
  fst (changeHabitAttendees stub [key; attendee])
  = <[key := json.Marshal
       (let h := stored_habit stub key in
        mkHabit (Name h) (Type_ h) (append (Attendees h) attendee) (Owner h))]> stub.
Proof. reflexivity. Qed.

Lemma queryHabit_response (stub : State) key :
  queryHabit stub [key] = (stub, shim.Success (default "" (stub !! key))).
Proof. reflexivity. Qed.

Lemma queryAllHabits_state (stub : State) : fst (queryAllHabits stub) = stub.
Proof.
  unfold queryAllHabits.
  destruct (shim.GetStateByRange stub "HABIT0" "HABIT999") as [it [err|]];
    [reflexivity |].
  destruct (scan_results it "[" false); reflexivity.
Qed.

Lemma stored_habit_Marshal (stub : State) key h :
  stub !! key = Some (json.Marshal h) -> stored_habit stub key = coerce_habit h.
Proof.
  intros H. unfold stored_habit, shim.GetState. rewrite H. cbn [fst default].
  apply Unmarshal_Marshal.
Qed.

Lemma stored_habit_insert (stub : State) key h :
  stored_habit (<[key := json.Marshal h]> stub) key = coerce_habit h.
Proof. apply stored_habit_Marshal, lookup_insert_eq. Qed.

Lemma stored_habit_valid (stub : State) key : valid_habit (stored_habit stub key) = true.
Proof. apply Unmarshal_valid. reflexivity. Qed.

Lemma stored_habit_fixed (stub : State) key :
  coerce_habit (stored_habit stub key) = stored_habit stub key.
Proof. apply coerce_habit_valid, stored_habit_valid. Qed.

Lemma holds_habit_Marshal (stub : State) key h :
  stub !! key = Some (json.Marshal h) -> holds_habit stub key (coerce_habit h).
Proof.
  intros H. exists (json.Marshal h). split; [exact H |]. split.
  - unfold json.Valid. rewrite parse_Marshal. reflexivity.
  - apply Unmarshal_Marshal.
Qed.

Lemma holds_habit_stored (stub : State) key h :
  holds_habit stub key h -> stored_habit stub key = h.
Proof.
  intros (b & Hb & _ & Hh). unfold stored_habit, shim.GetState. rewrite Hb. exact Hh.
Qed.

Lemma length_neq_eqb (args : list string) n :
  List.length args <> n -> negb (List.length args =? n)%nat = true.
Proof. intros H. apply negb_true_iff, Nat.eqb_neq, H. Qed.

Lemma seed_entries_eq :
  seed_entries =
  [ ("HABIT0", json.Marshal (mkHabit "Running" "Health" (Some ["Ruby"; "Kathy"]) "Kathy"));
    ("HABIT1", json.Marshal (mkHabit "English" "Learning" (Some ["Kathy"]) "Kathy"));
    ("HABIT2", json.Marshal (mkHabit "Workout" "Health" (Some ["Kimi"; "Rocky"]) "Kimi"));
    ("HABIT3", json.Marshal (mkHabit "bark" "Nature" (Some ["Ruby"; "Rocky"]) "Rocky"));
    ("HABIT4", json.Marshal
       (mkHabit "Blockchain" "Learning" (Some ["Kimi"; "Ruby"; "Rocky"]) "Kimi"));
    ("PERSON0", json.MarshalPerson (mkPerson "Kimi" 29));
    ("PERSON1", json.MarshalPerson (mkPerson "Kathy" 28));
    ("PERSON2", json.MarshalPerson (mkPerson "Ruby" 5));
    ("PERSON3", json.MarshalPerson (mkPerson "Rocky" 3)) ].
Proof. reflexivity. Qed.

(** The state after [initLedger]: the nine seed entries put one after the
    other over the state before. *)
Lemma initLedger_state (stub : State) :
  fst (initLedger stub) = foldl (fun m kv => <[fst kv := snd kv]> m) stub seed_entries.
Proof. reflexivity. Qed.

(** Looks a key up through a chain of [insert]s on literal keys. *)
Ltac lookup_inserts :=
  repeat first
    [ rewrite lookup_insert_eq
    | rewrite lookup_insert_ne by (assumption || discriminate)
    | match goal with
      | |- context [<[?k := _]> _ !! ?j] =>
        destruct (decide (k = j)) as [? | ?]; [subst |]
      end ].

Lemma initLedger_lookup (stub : State) :
  Forall (fun kv => fst (initLedger stub) !! fst kv = Some (snd kv)) seed_entries.
Proof.
  rewrite initLedger_state, seed_entries_eq. cbn [foldl fst snd].
  repeat constructor; cbn [fst snd]; lookup_inserts; reflexivity.
Qed.

Lemma initLedger_twice (stub : State) :
  fst (initLedger (fst (initLedger stub))) = fst (initLedger stub).
Proof.
  rewrite !initLedger_state, seed_entries_eq. cbn [foldl fst snd].
  apply map_eq. intros i. lookup_inserts; reflexivity.
Qed.

Lemma stored_habit_initLedger (stub : State) (i : nat) (h : Habit) :
  habits !! i = Some h ->
  stored_habit (fst (initLedger stub)) ("HABIT" +:+ Itoa (Z.of_nat i)) = h.
Proof.
  intros Hi.
  assert (Hlookup : fst (initLedger stub) !! ("HABIT" +:+ Itoa (Z.of_nat i))
                    = Some (json.Marshal h)).
  { rewrite initLedger_state, seed_entries_eq. cbn [foldl fst snd].
    do 5 (destruct i as [|i]; [injection Hi as <-; lookup_inserts; reflexivity |]).
    discriminate Hi. }
  rewrite (stored_habit_Marshal _ _ _ Hlookup).
  do 5 (destruct i as [|i]; [injection Hi as <-; reflexivity |]).
  discriminate Hi.
Qed.

(* ===================================================================== *)
(** * Creating a habit and reading it back *)
(* ===================================================================== *)

(** C1 fails as stated for a string that is not valid UTF-8: [json.Marshal]
    writes U+FFFD for the byte 0xFF, so the name that comes back is the three
    bytes of U+FFFD and not the input. *)
Lemma createHabit_queryHabit_invalid_utf8 :
  let name := String (byte 0xFF) "" in
  let created := createHabit ∅ ["H1"; name; "Health"; "Amy"; "Amy"] in
  let queried := queryHabit (fst created) ["H1"] in
  let decoded := json.Unmarshal (shim.Payload (snd queried)) zeroHabit in
  shim.Status (snd created) = shim.OK /\
  shim.Status (snd queried) = shim.OK /\
  Name decoded = utf8.EncodeRune utf8.RuneError /\
  Name decoded <> name.
Proof.
  cbv zeta. split; [reflexivity |]. split; [reflexivity |].
  split; [vm_compute; reflexivity | vm_compute; discriminate].
Qed.

(** C1, amended. For every state, every key and all strings [name], [type],
    [firstAttendee], [owner] that are valid UTF-8, [createHabit] with these
    five arguments and then [queryHabit] on the key both succeed, and the
    payload is a JSON document that decodes to the habit with this name, type
    and owner and with the attendees [[firstAttendee]]. *)
Theorem createHabit_then_queryHabit
    (stub : State) (key name type_ firstAttendee owner : string) :
  utf8.ValidString name = true ->
  utf8.ValidString type_ = true ->
  utf8.ValidString firstAttendee = true ->
  utf8.ValidString owner = true ->
  let created := createHabit stub [key; name; type_; firstAttendee; owner] in
  let queried := queryHabit (fst created) [key] in
  shim.Status (snd created) = shim.OK /\
  shim.Status (snd queried) = shim.OK /\
  json.Valid (shim.Payload (snd queried)) = true /\
  json.Unmarshal (shim.Payload (snd queried)) zeroHabit
    = mkHabit name type_ (Some [firstAttendee]) owner.
Proof.
  intros Hname Htype Hfirst Howner. cbv zeta.
  rewrite createHabit_state, queryHabit_response, lookup_insert_eq.
  cbn [snd shim.Payload shim.Success default id].
  split; [reflexivity |]. split; [reflexivity |]. split.
  - unfold json.Valid. rewrite parse_Marshal. reflexivity.
  - rewrite Unmarshal_Marshal. apply coerce_habit_valid.
    unfold valid_habit. cbn [Name Type_ Attendees Owner].
    change (elements (Some [firstAttendee])) with [firstAttendee]. cbn [forallb].
    rewrite Hname, Htype, Hfirst, Howner. reflexivity.
Qed.

Lemma createHabit_then_queryHabit_witness :
  let created := createHabit ∅ ["H1"; "Yoga"; "Health"; "Amy"; "Amy"] in
  let queried := queryHabit (fst created) ["H1"] in
  (utf8.ValidString "Yoga" = true /\ utf8.ValidString "Health" = true /\
   utf8.ValidString "Amy" = true) /\
  shim.Status (snd created) = shim.OK /\
  shim.Status (snd queried) = shim.OK /\
  json.Valid (shim.Payload (snd queried)) = true /\
  json.Unmarshal (shim.Payload (snd queried)) zeroHabit
    = mkHabit "Yoga" "Health" (Some ["Amy"]) "Amy".
Proof.
  cbv zeta. split; [repeat split |].
  apply (createHabit_then_queryHabit ∅ "H1" "Yoga" "Health" "Amy" "Amy");
    reflexivity.
Defined.

(* ===================================================================== *)
(** * Changing a stored habit *)
(* ===================================================================== *)

(** C2. When [key] holds a JSON-encoded habit whose attendees are [A], after
    [changeHabitAttendees] with [key] and "Y" it holds an encoded habit with
    the attendees [A] followed by "Y", and after a second call with "Z" one
    with [A] followed by "Y" and "Z"; name, type and owner stay. *)
Theorem changeHabitAttendees_appends (stub : State) (key : string) (h : Habit) :
  holds_habit stub key h ->
  let A := elements (Attendees h) in
  let first := changeHabitAttendees stub [key; "Y"] in
  let second := changeHabitAttendees (fst first) [key; "Z"] in
  shim.Status (snd first) = shim.OK /\
  holds_habit (fst first) key
    (mkHabit (Name h) (Type_ h) (Some (A ++ ["Y"])%list) (Owner h)) /\
  shim.Status (snd second) = shim.OK /\
  holds_habit (fst second) key
    (mkHabit (Name h) (Type_ h) (Some (A ++ ["Y"; "Z"])%list) (Owner h)).
Proof.
  intros Hkey. cbv zeta.
  pose proof (stored_habit_fixed stub key) as Hfix.
  rewrite (holds_habit_stored _ _ _ Hkey) in Hfix.
  set (h1 := mkHabit (Name h) (Type_ h) (Some (elements (Attendees h) ++ ["Y"])%list) (Owner h)).
  assert (Hfirst : holds_habit (fst (changeHabitAttendees stub [key; "Y"])) key h1).
  { rewrite changeHabitAttendees_state. cbv zeta.
    rewrite (holds_habit_stored _ _ _ Hkey). unfold h1.
    rewrite <- (coerce_habit_append h "Y" Hfix eq_refl).
    apply holds_habit_Marshal, lookup_insert_eq. }
  split; [reflexivity |]. split; [exact Hfirst |]. split; [reflexivity |].
  pose proof (stored_habit_fixed (fst (changeHabitAttendees stub [key; "Y"])) key) as Hfix1.
  rewrite (holds_habit_stored _ _ _ Hfirst) in Hfix1.
  rewrite (changeHabitAttendees_state (fst (changeHabitAttendees stub [key; "Y"]))).
  cbv zeta. rewrite (holds_habit_stored _ _ _ Hfirst).
  replace (mkHabit (Name h) (Type_ h) (Some (elements (Attendees h) ++ ["Y"; "Z"])%list) (Owner h))
    with (coerce_habit (mkHabit (Name h1) (Type_ h1) (append (Attendees h1) "Z") (Owner h1))).
  - apply holds_habit_Marshal, lookup_insert_eq.
  - rewrite (coerce_habit_append h1 "Z" Hfix1 eq_refl). subst h1.
    cbn [Name Type_ Attendees Owner]. change (elements (Some ?l)) with l.
    rewrite <- app_assoc. reflexivity.
Qed.

Lemma changeHabitAttendees_appends_witness :
  let h := mkHabit "Yoga" "Health" (Some ["Amy"]) "Amy" in
  let stub : State := {["H1" := json.Marshal h]} in
  let first := changeHabitAttendees stub ["H1"; "Y"] in
  let second := changeHabitAttendees (fst first) ["H1"; "Z"] in
  holds_habit stub "H1" h /\
  shim.Status (snd first) = shim.OK /\
  holds_habit (fst first) "H1" (mkHabit "Yoga" "Health" (Some ["Amy"; "Y"]) "Amy") /\
  shim.Status (snd second) = shim.OK /\
  holds_habit (fst second) "H1" (mkHabit "Yoga" "Health" (Some ["Amy"; "Y"; "Z"]) "Amy").
Proof.
  cbv zeta.
  assert (Hkey : holds_habit
                   {["H1" := json.Marshal (mkHabit "Yoga" "Health" (Some ["Amy"]) "Amy")]}
                   "H1" (mkHabit "Yoga" "Health" (Some ["Amy"]) "Amy")).
  { eexists. split; [apply lookup_singleton_eq |]. split; vm_compute; reflexivity. }
  split; [exact Hkey |].
  exact (changeHabitAttendees_appends _ "H1" _ Hkey).
Defined.

(** C3. When [key] holds a JSON-encoded habit, [changeHabitOwner] with [key]
    and "X" and then [queryHabit] on [key] yield a record whose owner is "X"
    and whose name, type and attendees are those it had before. *)
Theorem changeHabitOwner_then_queryHabit (stub : State) (key : string) (h : Habit) :
  holds_habit stub key h ->
  let changed := changeHabitOwner stub [key; "X"] in
  let queried := queryHabit (fst changed) [key] in
  shim.Status (snd changed) = shim.OK /\
  shim.Status (snd queried) = shim.OK /\
  json.Valid (shim.Payload (snd queried)) = true /\
  json.Unmarshal (shim.Payload (snd queried)) zeroHabit
    = mkHabit (Name h) (Type_ h) (Attendees h) "X".
Proof.
  intros Hkey. cbv zeta.
  pose proof (stored_habit_fixed stub key) as Hfix.
  rewrite (holds_habit_stored _ _ _ Hkey) in Hfix.
  rewrite changeHabitOwner_state, queryHabit_response, lookup_insert_eq. cbv zeta.
  cbn [snd shim.Payload shim.Success default id].
  rewrite (holds_habit_stored _ _ _ Hkey), Unmarshal_Marshal.
  rewrite (coerce_habit_owner h "X" Hfix eq_refl).
  split; [reflexivity |]. split; [reflexivity |].
  split; [unfold json.Valid; rewrite parse_Marshal |]; reflexivity.
Qed.

Lemma changeHabitOwner_then_queryHabit_witness :
  let h := mkHabit "Yoga" "Health" (Some ["Amy"]) "Amy" in
  let stub : State := {["H1" := json.Marshal h]} in
  let changed := changeHabitOwner stub ["H1"; "X"] in
  let queried := queryHabit (fst changed) ["H1"] in
  holds_habit stub "H1" h /\
  shim.Status (snd changed) = shim.OK /\
  shim.Status (snd queried) = shim.OK /\
  json.Valid (shim.Payload (snd queried)) = true /\
  json.Unmarshal (shim.Payload (snd queried)) zeroHabit
    = mkHabit "Yoga" "Health" (Some ["Amy"]) "X".
Proof.
  cbv zeta.
  assert (Hkey : holds_habit
                   {["H1" := json.Marshal (mkHabit "Yoga" "Health" (Some ["Amy"]) "Amy")]}
                   "H1" (mkHabit "Yoga" "Health" (Some ["Amy"]) "Amy")).
  { eexists. split; [apply lookup_singleton_eq |]. split; vm_compute; reflexivity. }
  split; [exact Hkey |].
  exact (changeHabitOwner_then_queryHabit _ "H1" _ Hkey).
Defined.

(* ===================================================================== *)
(** * The seed data *)
(* ===================================================================== *)

(** C4. [initLedger] is idempotent: whatever the state before, after one call
    and after two calls in a row the keys [HABIT0] to [HABIT4] and [PERSON0]
    to [PERSON3] hold the JSON encodings of the seed records; the two states
    are even equal. *)
Theorem initLedger_idempotent (stub : State) :
  let once := fst (initLedger stub) in
  let twice := fst (initLedger once) in
  map fst seed_entries
    = ["HABIT0"; "HABIT1"; "HABIT2"; "HABIT3"; "HABIT4";
       "PERSON0"; "PERSON1"; "PERSON2"; "PERSON3"] /\
  Forall (fun kv => once !! fst kv = Some (snd kv) /\ twice !! fst kv = Some (snd kv))
         seed_entries /\
  twice = once.
Proof.
  cbv zeta. split; [reflexivity |]. split; [| apply initLedger_twice].
  rewrite initLedger_twice.
  eapply Forall_impl; [apply (initLedger_lookup stub) |].
  intros kv H. split; exact H.
Qed.

(** C5. On the state [initLedger] writes over the empty ledger,
    [queryAllHabits] succeeds with a payload that is a JSON array of exactly
    five objects, for [HABIT0] to [HABIT4] in this order; each has the key
    under [Key] and under [Record] the JSON of the seed habit, which decodes
    to that habit. The person records are not part of it. *)
Theorem queryAllHabits_after_initLedger :
  let stub := fst (initLedger ∅) in
  let response := snd (queryAllHabits stub) in
  fst (queryAllHabits stub) = stub /\
  shim.Status response = shim.OK /\
  exists objects,
    json.parse (shim.Payload response) = Some (json.JArray objects) /\
    List.length objects = 5%nat /\
    objects = zip_with result_value
                ["HABIT0"; "HABIT1"; "HABIT2"; "HABIT3"; "HABIT4"] habits /\
    Forall (fun h => json.store_value (habit_value h) zeroHabit = h) habits.
Proof.
  cbv zeta. split; [apply queryAllHabits_state |].
  split; [vm_compute; reflexivity |].
  eexists. split; [vm_compute; reflexivity |].
  split; [reflexivity |]. split; [reflexivity |].
  repeat constructor.
Qed.

(* ===================================================================== *)
(** * Wrong numbers of arguments *)
(* ===================================================================== *)

(** C6. With a number of arguments other than the expected one (5 for
    [createHabit], 2 for [changeHabitOwner] and [changeHabitAttendees]) the
    operation returns an error whose message contains "Incorrect number of
    arguments", and the state is unchanged. *)
Theorem wrong_argument_count_rejected (stub : State) (args : list string) :
  (List.length args <> 5%nat ->
   exists msg, createHabit stub args = (stub, shim.Error msg) /\
     Contains msg "Incorrect number of arguments" = true) /\
  (List.length args <> 2%nat ->
   exists msg, changeHabitOwner stub args = (stub, shim.Error msg) /\
     Contains msg "Incorrect number of arguments" = true) /\
  (List.length args <> 2%nat ->
   exists msg, changeHabitAttendees stub args = (stub, shim.Error msg) /\
     Contains msg "Incorrect number of arguments" = true).
Proof.
  repeat split; intros Hlen;
    unfold createHabit, changeHabitOwner, changeHabitAttendees;
    rewrite (length_neq_eqb _ _ Hlen); eexists; (split; [reflexivity |]);
    reflexivity.
Qed.

Lemma wrong_argument_count_rejected_witness :
  (List.length ["H1"; "Yoga"] <> 5%nat /\
   exists msg, createHabit ∅ ["H1"; "Yoga"] = (∅, shim.Error msg) /\
     Contains msg "Incorrect number of arguments" = true) /\
  (List.length ["H1"] <> 2%nat /\
   exists msg, changeHabitOwner ∅ ["H1"] = (∅, shim.Error msg) /\
     Contains msg "Incorrect number of arguments" = true) /\
  (List.length ["H1"; "a"; "b"] <> 2%nat /\
   exists msg, changeHabitAttendees ∅ ["H1"; "a"; "b"] = (∅, shim.Error msg) /\
     Contains msg "Incorrect number of arguments" = true).
Proof.
  split; [| split]; (split; [cbn; lia |]).
  - apply (wrong_argument_count_rejected ∅ ["H1"; "Yoga"]). cbn. lia.
  - apply (wrong_argument_count_rejected ∅ ["H1"]). cbn. lia.
  - apply (wrong_argument_count_rejected ∅ ["H1"; "a"; "b"]). cbn. lia.
Defined.

(* ===================================================================== *)
(** * The owner of a created habit *)
(* ===================================================================== *)

(** C7 fails as stated: [createHabit] stores the owner it is given, the empty
    string included. *)
Lemma createHabit_empty_owner :
  let created := createHabit ∅ ["H1"; "Yoga"; "Health"; "Amy"; ""] in
  shim.Status (snd created) = shim.OK /\
  fst created !! "H1" = Some (json.Marshal (mkHabit "Yoga" "Health" (Some ["Amy"]) "")) /\
  Owner (stored_habit (fst created) "H1") = "".
Proof.
  cbv zeta. split; [reflexivity |]. rewrite createHabit_state, lookup_insert_eq.
  split; [reflexivity |]. rewrite stored_habit_insert. reflexivity.
Qed.

(** C7, amended. The habit [createHabit] stores with five arguments has the
    owner given as the fifth, so its owner is empty exactly when that argument
    is; the habits [initLedger] stores under [HABIT0] to [HABIT4] are the seed
    habits, whose owners are not empty. *)
Theorem created_habit_owner
    (stub : State) (key name type_ firstAttendee owner : string) :
  let created := createHabit stub [key; name; type_; firstAttendee; owner] in
  Owner (stored_habit (fst created) key) = coerce owner /\
  (Owner (stored_habit (fst created) key) = "" <-> owner = "") /\
  (forall i h, habits !! i = Some h ->
     stored_habit (fst (initLedger stub)) ("HABIT" +:+ Itoa (Z.of_nat i)) = h /\
     Owner h <> "").
Proof.
  cbv zeta. rewrite createHabit_state, stored_habit_insert.
  cbn [coerce_habit Owner]. split; [reflexivity |]. split.
  - split.
    + intros Hempty. destruct (String.eqb_spec owner "") as [-> | Hne]; [reflexivity |].
      exfalso. exact (coerce_nonempty _ Hne Hempty).
    + intros ->. reflexivity.
  - intros i h Hi. split; [apply stored_habit_initLedger, Hi |].
    do 5 (destruct i as [|i]; [injection Hi as <-; discriminate |]).
    discriminate Hi.
Qed.

Lemma created_habit_owner_witness :
  habits !! 3%nat = Some (mkHabit "bark" "Nature" (Some ["Ruby"; "Rocky"]) "Rocky") /\
  Owner (stored_habit (fst (createHabit ∅ ["H1"; "Yoga"; "Health"; "Amy"; "Amy"])) "H1")
  = "Amy" /\
  stored_habit (fst (initLedger ∅)) "HABIT3"
  = mkHabit "bark" "Nature" (Some ["Ruby"; "Rocky"]) "Rocky".
Proof.
  pose proof (created_habit_owner ∅ "H1" "Yoga" "Health" "Amy" "Amy") as H.
  cbv zeta in H. destruct H as (Ho & _ & Hseed).
  split; [reflexivity |]. split.
  - exact Ho.
  - exact (proj1 (Hseed 3%nat _ eq_refl)).
Defined.

(* ===================================================================== *)
(** * The attendees of the stored habits *)
(* ===================================================================== *)

(** C8 fails as stated: [changeHabitOwner] on a key that holds nothing
    decodes nothing, keeps the nil slice of [Habit{}] and stores it as
    [null]. *)
Lemma changeHabitOwner_missing_key_null_attendees :
  let changed := changeHabitOwner ∅ ["H1"; "X"] in
  shim.Status (snd changed) = shim.OK /\
  fst changed !! "H1" = Some (json.Marshal (mkHabit "" "" None "X")) /\
  json.parse (json.Marshal (mkHabit "" "" None "X"))
    = Some (json.JObject
              [("name", json.JString ""); ("type", json.JString "");
               ("attendees", json.JNull); ("owner", json.JString "X")]) /\
  Attendees (stored_habit (fst changed) "H1") = None.
Proof.
  cbv zeta. split; [reflexivity |].
  rewrite changeHabitOwner_state, lookup_insert_eq. split; [reflexivity |].
  split; [vm_compute; reflexivity |].
  rewrite stored_habit_insert. reflexivity.
Qed.

Lemma well_formed_insert (stub : State) key b :
  well_formed stub -> person_record b \/ habit_record b ->
  well_formed (<[key := b]> stub).
Proof.
  intros Hwf Hb key' b' Hlookup.
  destruct (decide (key = key')) as [<- | Hne].
  - rewrite lookup_insert_eq in Hlookup. injection Hlookup as <-. exact Hb.
  - rewrite lookup_insert_ne in Hlookup by exact Hne. exact (Hwf _ _ Hlookup).
Qed.

Lemma well_formed_initLedger (stub : State) :
  well_formed stub -> well_formed (fst (initLedger stub)).
Proof.
  intros Hwf. rewrite initLedger_state, seed_entries_eq. cbn [foldl fst snd].
  repeat (apply well_formed_insert;
          [| first [ left; unfold person_record, people; cbn [map In]; tauto
                   | right; eexists; split; [reflexivity | discriminate] ] ]).
  exact Hwf.
Qed.

Lemma well_formed_createHabit (stub : State) args :
  well_formed stub -> well_formed (fst (createHabit stub args)).
Proof.
  intros Hwf. unfold createHabit.
  destruct (negb (List.length args =? 5)%nat); [exact Hwf |].
  cbn [shim.PutState fst]. apply well_formed_insert; [exact Hwf |].
  right. eexists. split; [reflexivity | discriminate].
Qed.

Lemma well_formed_changeHabitAttendees (stub : State) args :
  well_formed stub -> well_formed (fst (changeHabitAttendees stub args)).
Proof.
  intros Hwf. unfold changeHabitAttendees.
  destruct (negb (List.length args =? 2)%nat); [exact Hwf |].
  cbn [shim.PutState shim.GetState fst]. apply well_formed_insert; [exact Hwf |].
  right. eexists. split; [reflexivity | discriminate].
Qed.

Lemma well_formed_changeHabitOwner (stub : State) key owner :
  Attendees (stored_habit stub key) <> None ->
  well_formed stub -> well_formed (fst (changeHabitOwner stub [key; owner])).
Proof.
  intros Hatt Hwf. rewrite changeHabitOwner_state. cbv zeta.
  apply well_formed_insert; [exact Hwf |].
  right. eexists. split; [reflexivity | exact Hatt].
Qed.

Lemma well_formed_Invoke (stub : State) input :
  well_formed stub -> allowed stub input -> well_formed (fst (Invoke stub input)).
Proof.
  intros Hwf Hallowed.
  destruct Hallowed as [| function args Hfun | args Hlen | key owner Hatt].
  - exact Hwf.
  - unfold Invoke. cbn [shim.GetFunctionAndParameters].
    destruct (String.eqb function "queryHabit").
    { unfold queryHabit. destruct (negb _); exact Hwf. }
    destruct (String.eqb function "initLedger").
    { apply well_formed_initLedger, Hwf. }
    destruct (String.eqb function "createHabit").
    { apply well_formed_createHabit, Hwf. }
    destruct (String.eqb function "queryAllHabits").
    { rewrite queryAllHabits_state. exact Hwf. }
    destruct (String.eqb_spec function "changeHabitOwner") as [Heq | _].
    { contradiction. }
    destruct (String.eqb function "changeHabitAttendees").
    { apply well_formed_changeHabitAttendees, Hwf. }
    exact Hwf.
  - change (Invoke stub ("changeHabitOwner" :: args)) with (changeHabitOwner stub args).
    unfold changeHabitOwner. rewrite (length_neq_eqb _ _ Hlen). exact Hwf.
  - change (Invoke stub ["changeHabitOwner"; key; owner])
      with (changeHabitOwner stub [key; owner]).
    exact (well_formed_changeHabitOwner _ _ _ Hatt Hwf).
Qed.

Lemma reachable_well_formed (stub : State) : reachable stub -> well_formed stub.
Proof.
  induction 1 as [| stub input _ IH Hallowed].
  - intros key b Hlookup. rewrite lookup_empty in Hlookup. discriminate.
  - apply well_formed_Invoke; assumption.
Qed.

(** C8, amended. In every state reached from the empty ledger by invocations
    among which [changeHabitOwner] is only applied to keys whose bytes decode
    to a habit with non-nil attendees, every stored value other than the
    person records of [initLedger] is a JSON document that decodes to a habit
    whose attendees are not nil. [changeHabitAttendees] may be applied to any
    key, missing or not. *)
Theorem stored_attendees_not_null (stub : State) (key b : string) :
  reachable stub ->
  stub !! key = Some b ->
  person_record b \/
  (json.Valid b = true /\ Attendees (json.Unmarshal b zeroHabit) <> None).
Proof.
  intros Hreach Hlookup.
  destruct (reachable_well_formed _ Hreach _ _ Hlookup) as [Hp | (h & -> & Hatt)];
    [left; exact Hp | right].
  split.
  - unfold json.Valid. rewrite parse_Marshal. reflexivity.
  - rewrite Unmarshal_Marshal. cbn [coerce_habit Attendees].
    destruct (Attendees h); [discriminate | congruence].
Qed.

Lemma stored_attendees_not_null_witness :
  let stub := fst (Invoke ∅ ["changeHabitAttendees"; "H1"; "Amy"]) in
  let b := json.Marshal (mkHabit "" "" (Some ["Amy"]) "") in
  reachable stub /\
  stub !! "H1" = Some b /\
  (person_record b \/
   (json.Valid b = true /\ Attendees (json.Unmarshal b zeroHabit) <> None)).
Proof.
  cbv zeta.
  assert (Hreach : reachable (fst (Invoke ∅ ["changeHabitAttendees"; "H1"; "Amy"]))).
  { apply reachable_invoke; [apply reachable_empty |].
    apply allowed_other. discriminate. }
  assert (Hlookup : fst (Invoke ∅ ["changeHabitAttendees"; "H1"; "Amy"]) !! "H1"
                    = Some (json.Marshal (mkHabit "" "" (Some ["Amy"]) ""))).
  { change (Invoke ∅ ["changeHabitAttendees"; "H1"; "Amy"])
      with (changeHabitAttendees ∅ ["H1"; "Amy"]).
    rewrite changeHabitAttendees_state. apply lookup_insert_eq. }
  split; [exact Hreach |]. split; [exact Hlookup |].
  exact (stored_attendees_not_null _ "H1" _ Hreach Hlookup).
Defined.

(* ===================================================================== *)
(** * Queries *)
(* ===================================================================== *)

(** C9. For every key, present or not, [queryHabit] with that one argument
    succeeds, its payload is the bytes stored under the key (none when the key
    is absent), and the state is not modified. *)
Theorem queryHabit_returns_stored_bytes (stub : State) (key : string) :
  let '(stub', response) := queryHabit stub [key] in
  stub' = stub /\
  shim.Status response = shim.OK /\
  shim.Payload response = match stub !! key with Some b => b | None => "" end.
Proof.
  rewrite queryHabit_response. split; [| split]; reflexivity.
Qed.

(** C10. There is a sequence of invocations after which [queryAllHabits]
    succeeds with a payload that is not well-formed JSON: a habit created
    under a key of the scanned range that contains a double quote, here
    [HABIT1] followed by a double quote and [x]. *)
Theorem queryAllHabits_payload_not_json :
  exists args : list string,
    let created := Invoke ∅ ("createHabit" :: args) in
    let queried := Invoke (fst created) ["queryAllHabits"] in
    shim.Status (snd created) = shim.OK /\
    shim.Status (snd queried) = shim.OK /\
    json.Valid (shim.Payload (snd queried)) = false.
Proof.
  exists ["HABIT1" +:+ String dquote "x"; "Yoga"; "Health"; "Amy"; "Amy"].
  cbv zeta. split; [reflexivity |]. split; vm_compute; reflexivity.
Qed.

Example queryAllHabits_quote_in_key_payload :
  shim.Payload (snd (queryAllHabits
    (fst (createHabit ∅ ["HABIT1" +:+ String dquote "x"; "Yoga"; "Health"; "Amy"; "Amy"]))))
  = "[{" +:+ String dquote "Key" +:+ String dquote ":" +:+
    String dquote "HABIT1" +:+ String dquote "x" +:+ String dquote ", " +:+
    String dquote "Record" +:+ String dquote ":" +:+
    json.Marshal (mkHabit "Yoga" "Health" (Some ["Amy"]) "Amy") +:+ "}]".
Proof. vm_compute. reflexivity. Qed.

(* ===================================================================== *)
(** * Dispatch *)
(* ===================================================================== *)

(** X1. A function name that is none of the six routed ones, or no name at
    all, makes [Invoke] return the error "Invalid Smart Contract function
    name." and leaves the state as it is, whatever the arguments. *)
Theorem Invoke_unknown_function (stub : State) (input : list string) :
  ~ In (fst (shim.GetFunctionAndParameters input)) functions ->
  Invoke stub input = (stub, shim.Error "Invalid Smart Contract function name.").
Proof.
  intros Hnot. unfold Invoke.
  destruct (shim.GetFunctionAndParameters input) as [function args].
  cbn [fst] in Hnot. unfold functions in Hnot. cbn [In] in Hnot.
  repeat match goal with
  | |- context [String.eqb function ?name] =>
    destruct (String.eqb_spec function name) as [-> | _]; [exfalso; tauto |]
  end.
  reflexivity.
Qed.

Lemma Invoke_unknown_function_witness :
  ~ In (fst (shim.GetFunctionAndParameters ["deleteHabit"; "H1"])) functions /\
  Invoke ∅ ["deleteHabit"; "H1"]
  = (∅, shim.Error "Invalid Smart Contract function name.") /\
  Invoke ∅ [] = (∅, shim.Error "Invalid Smart Contract function name.").
Proof.
  assert (H1 : ~ In (fst (shim.GetFunctionAndParameters ["deleteHabit"; "H1"])) functions).
  { cbn. intros H. repeat destruct H as [H | H]; discriminate || exact H. }
  assert (H2 : ~ In (fst (shim.GetFunctionAndParameters [])) functions).
  { cbn. intros H. repeat destruct H as [H | H]; discriminate || exact H. }
  split; [exact H1 |]. split.
  - exact (Invoke_unknown_function ∅ ["deleteHabit"; "H1"] H1).
  - exact (Invoke_unknown_function ∅ [] H2).
Defined.

(** X2. [queryHabit] with a number of arguments other than one returns an
    error whose message contains "Incorrect number of arguments" and reads
    nothing: the state is as before. *)
Theorem queryHabit_wrong_argument_count (stub : State) (args : list string) :
  List.length args <> 1%nat ->
  exists msg, queryHabit stub args = (stub, shim.Error msg) /\
    Contains msg "Incorrect number of arguments" = true.
Proof.
  intros Hlen. unfold queryHabit. rewrite (length_neq_eqb _ _ Hlen).
  eexists. split; reflexivity.
Qed.

Lemma queryHabit_wrong_argument_count_witness :
  List.length (A:=string) [] <> 1%nat /\
  exists msg, queryHabit ∅ [] = (∅, shim.Error msg) /\
    Contains msg "Incorrect number of arguments" = true.
Proof.
  split; [cbn; lia |]. apply (queryHabit_wrong_argument_count ∅ []). cbn. lia.
Defined.

(* ===================================================================== *)
(** * The keys an invocation writes *)
(* ===================================================================== *)

Lemma createHabit_other_key (stub : State) args key :
  key <> arg args 0 -> fst (createHabit stub args) !! key = stub !! key.
Proof.
  intros Hne. unfold createHabit.
  destruct (negb (List.length args =? 5)%nat); [reflexivity |].
  cbn [shim.PutState fst]. apply lookup_insert_ne. congruence.
Qed.

Lemma changeHabitOwner_other_key (stub : State) args key :
  key <> arg args 0 -> fst (changeHabitOwner stub args) !! key = stub !! key.
Proof.
  intros Hne. unfold changeHabitOwner.
  destruct (negb (List.length args =? 2)%nat); [reflexivity |].
  cbn [shim.PutState shim.GetState fst]. apply lookup_insert_ne. congruence.
Qed.

Lemma changeHabitAttendees_other_key (stub : State) args key :
  key <> arg args 0 -> fst (changeHabitAttendees stub args) !! key = stub !! key.
Proof.
  intros Hne. unfold changeHabitAttendees.
  destruct (negb (List.length args =? 2)%nat); [reflexivity |].
  cbn [shim.PutState shim.GetState fst]. apply lookup_insert_ne. congruence.
Qed.

Lemma initLedger_other_key (stub : State) key :
  ~ In key (map fst seed_entries) -> fst (initLedger stub) !! key = stub !! key.
Proof.
  intros Hnot. rewrite initLedger_state. rewrite seed_entries_eq in *.
  cbn [foldl fst snd map In] in *.
  repeat (rewrite lookup_insert_ne; [| intros <-; tauto]). reflexivity.
Qed.

Lemma queryHabit_state (stub : State) args : fst (queryHabit stub args) = stub.
Proof. unfold queryHabit. destruct (negb _); reflexivity. Qed.

(** X3. The only keys an invocation can change: the first argument of
    [createHabit], [changeHabitOwner] and [changeHabitAttendees], and the
    nine seed keys for [initLedger]. Every other key keeps its value or its
    absence; [queryHabit], [queryAllHabits] and unknown names change none. *)
Theorem Invoke_changes_only (stub : State) (input : list string) (key : string) :
  fst (Invoke stub input) !! key <> stub !! key ->
  let function := fst (shim.GetFunctionAndParameters input) in
  let args := snd (shim.GetFunctionAndParameters input) in
  (In function ["createHabit"; "changeHabitOwner"; "changeHabitAttendees"] /\
   key = arg args 0) \/
  (function = "initLedger" /\ In key (map fst seed_entries)).
Proof.
  unfold Invoke. destruct (shim.GetFunctionAndParameters input) as [function args].
  cbn [fst snd]. intros Hchanged.
  destruct (String.eqb function "queryHabit").
  { exfalso. apply Hchanged. rewrite queryHabit_state. reflexivity. }
  destruct (String.eqb_spec function "initLedger") as [-> | _].
  { right. split; [reflexivity |].
    destruct (in_dec string_dec key (map fst seed_entries)) as [Hin | Hnot];
      [exact Hin |].
    exfalso. apply Hchanged, initLedger_other_key, Hnot. }
  destruct (String.eqb_spec function "createHabit") as [-> | _].
  { left. split; [cbn; tauto |].
    destruct (string_dec key (arg args 0)) as [Heq | Hne]; [exact Heq |].
    exfalso. apply Hchanged, createHabit_other_key, Hne. }
  destruct (String.eqb function "queryAllHabits").
  { exfalso. apply Hchanged. rewrite queryAllHabits_state. reflexivity. }
  destruct (String.eqb_spec function "changeHabitOwner") as [-> | _].
  { left. split; [cbn; tauto |].
    destruct (string_dec key (arg args 0)) as [Heq | Hne]; [exact Heq |].
    exfalso. apply Hchanged, changeHabitOwner_other_key, Hne. }
  destruct (String.eqb_spec function "changeHabitAttendees") as [-> | _].
  { left. split; [cbn; tauto |].
    destruct (string_dec key (arg args 0)) as [Heq | Hne]; [exact Heq |].
    exfalso. apply Hchanged, changeHabitAttendees_other_key, Hne. }
  exfalso. apply Hchanged. reflexivity.
Qed.

Lemma Invoke_changes_only_witness :
  let stub : State := ∅ in
  let input := ["createHabit"; "H1"; "Yoga"; "Health"; "Amy"; "Amy"] in
  fst (Invoke stub input) !! "H1" <> stub !! "H1" /\
  ((In "createHabit" ["createHabit"; "changeHabitOwner"; "changeHabitAttendees"] /\
    "H1" = arg ["H1"; "Yoga"; "Health"; "Amy"; "Amy"] 0) \/
   ("createHabit" = "initLedger" /\ In "H1" (map fst seed_entries))).
Proof.
  cbv zeta.
  assert (H : fst (Invoke ∅ ["createHabit"; "H1"; "Yoga"; "Health"; "Amy"; "Amy"]) !! "H1"
              <> (∅ : State) !! "H1").
  { change (Invoke ∅ ["createHabit"; "H1"; "Yoga"; "Health"; "Amy"; "Amy"])
      with (createHabit ∅ ["H1"; "Yoga"; "Health"; "Amy"; "Amy"]).
    rewrite createHabit_state, lookup_insert_eq, lookup_empty. discriminate. }
  split; [exact H |].
  exact (Invoke_changes_only ∅ ["createHabit"; "H1"; "Yoga"; "Health"; "Amy"; "Amy"] "H1" H).
Defined.

(* ===================================================================== *)
(** * Changes of a record, in any state *)
(* ===================================================================== *)

Lemma coerce_habit_fixed_fields h :
  coerce_habit h = h ->
  coerce (Name h) = Name h /\ coerce (Type_ h) = Type_ h /\
  option_map (map coerce) (Attendees h) = Attendees h /\ coerce (Owner h) = Owner h.
Proof.
  destruct h as [n t a o]. unfold coerce_habit. cbn [Name Type_ Attendees Owner].
  intros [= Hn Ht Ha Ho]. auto.
Qed.

Lemma elements_fixed a :
  option_map (map coerce) a = a -> map coerce (elements a) = elements a.
Proof.
  destruct a as [l|]; cbn [option_map]; [| reflexivity].
  intros [= H]. exact H.
Qed.

Lemma stored_habit_undecodable (stub : State) key :
  json.Valid (fst (shim.GetState stub key)) = false -> stored_habit stub key = zeroHabit.
Proof.
  unfold stored_habit, json.Unmarshal, json.Valid.
  destruct (json.parse _); [discriminate | reflexivity].
Qed.

Lemma GetState_missing (stub : State) key :
  stub !! key = None -> json.Valid (fst (shim.GetState stub key)) = false.
Proof. intros H. unfold shim.GetState. rewrite H. reflexivity. Qed.

(** X4. On a key that holds nothing, or bytes that are not well-formed JSON,
    both changes still succeed: [changeHabitOwner] stores a habit with empty
    name and type, nil attendees and the owner given, [changeHabitAttendees]
    one with the single attendee given and everything else empty. *)
Theorem changes_on_undecodable_record (stub : State) (key x : string) :
  json.Valid (fst (shim.GetState stub key)) = false ->
  changeHabitOwner stub [key; x]
  = (<[key := json.Marshal (mkHabit "" "" None x)]> stub, shim.Success "") /\
  changeHabitAttendees stub [key; x]
  = (<[key := json.Marshal (mkHabit "" "" (Some [x]) "")]> stub, shim.Success "").
Proof.
  intros Hbad. pose proof (stored_habit_undecodable _ _ Hbad) as Hzero.
  unfold stored_habit in Hzero.
  unfold changeHabitOwner, changeHabitAttendees.
  cbn [List.length Nat.eqb negb arg nth shim.PutState].
  destruct (shim.GetState stub key) as [habitAsBytes err]. cbn [fst] in Hzero.
  rewrite Hzero. split; reflexivity.
Qed.

Lemma changes_on_undecodable_record_witness :
  json.Valid (fst (shim.GetState ∅ "H1")) = false /\
  changeHabitOwner ∅ ["H1"; "X"]
  = ({["H1" := json.Marshal (mkHabit "" "" None "X")]}, shim.Success "") /\
  changeHabitAttendees ∅ ["H1"; "X"]
  = ({["H1" := json.Marshal (mkHabit "" "" (Some ["X"]) "")]}, shim.Success "").
Proof.
  split; [reflexivity |].
  exact (changes_on_undecodable_record ∅ "H1" "X" (GetState_missing ∅ "H1" (lookup_empty _))).
Defined.

(** X5. Of two [changeHabitOwner] on the same key the second one decides: the
    state after both is the state after the second alone, whatever the key
    held and whatever the two owners are. *)
Theorem changeHabitOwner_last_wins (stub : State) (key x y : string) :
  fst (changeHabitOwner (fst (changeHabitOwner stub [key; x])) [key; y])
  = fst (changeHabitOwner stub [key; y]).
Proof.
  rewrite !changeHabitOwner_state. cbv zeta. rewrite stored_habit_insert.
  destruct (coerce_habit_fixed_fields _ (stored_habit_fixed stub key))
    as (Hn & Ht & Ha & _).
  cbn [coerce_habit Name Type_ Attendees Owner]. rewrite Hn, Ht, Ha.
  apply insert_insert_eq.
Qed.

(** X6. In any state and for any string, [changeHabitAttendees] succeeds and
    leaves under the key the habit decoded before with the string, coerced
    to valid UTF-8, added after its attendees: one more element each time,
    nothing removed, reordered or merged. *)
Theorem changeHabitAttendees_appends_any (stub : State) (key y : string) :
  let h := stored_habit stub key in
  let changed := changeHabitAttendees stub [key; y] in
  shim.Status (snd changed) = shim.OK /\
  stored_habit (fst changed) key
  = mkHabit (Name h) (Type_ h) (Some (elements (Attendees h) ++ [coerce y])%list) (Owner h).
Proof.
  cbv zeta. split; [reflexivity |].
  rewrite changeHabitAttendees_state. cbv zeta. rewrite stored_habit_insert.
  destruct (coerce_habit_fixed_fields _ (stored_habit_fixed stub key))
    as (Hn & Ht & Ha & Ho).
  unfold coerce_habit, append. cbn [Name Type_ Attendees Owner option_map].
  rewrite Hn, Ht, Ho, map_app. cbn [map].
  change (default [] ?a) with (elements a). rewrite (elements_fixed _ Ha).
  reflexivity.
Qed.

(** X7. A change of owner and an added attendee on the same key commute when
    the two strings are valid UTF-8: either order gives the same state. *)
Theorem owner_and_attendee_commute (stub : State) (key x y : string) :
  utf8.ValidString x = true -> utf8.ValidString y = true ->
  fst (changeHabitAttendees (fst (changeHabitOwner stub [key; x])) [key; y])
  = fst (changeHabitOwner (fst (changeHabitAttendees stub [key; y])) [key; x]).
Proof.
  intros Hx Hy.
  rewrite (changeHabitAttendees_state (fst _)), (changeHabitOwner_state (fst _)).
  rewrite changeHabitOwner_state, changeHabitAttendees_state. cbv zeta.
  rewrite !stored_habit_insert, !insert_insert_eq.
  destruct (coerce_habit_fixed_fields _ (stored_habit_fixed stub key))
    as (Hn & Ht & Ha & Ho).
  unfold coerce_habit, append. cbn [Name Type_ Attendees Owner option_map].
  rewrite Hn, Ht, Ha, map_app. cbn [map].
  change (default [] ?a) with (elements a).
  rewrite (elements_fixed _ Ha), (coerce_valid _ Hx), (coerce_valid _ Hy).
  reflexivity.
Qed.

Lemma owner_and_attendee_commute_witness :
  (utf8.ValidString "X" = true /\ utf8.ValidString "Y" = true) /\
  fst (changeHabitAttendees (fst (changeHabitOwner ∅ ["H1"; "X"])) ["H1"; "Y"])
  = fst (changeHabitOwner (fst (changeHabitAttendees ∅ ["H1"; "Y"])) ["H1"; "X"]).
Proof.
  split; [split; reflexivity |].
  apply (owner_and_attendee_commute ∅ "H1" "X" "Y"); reflexivity.
Defined.

(* ===================================================================== *)
(** * The text of [queryAllHabits] *)
(* ===================================================================== *)

Lemma scan_results_text it :
  forall buffer written,
  scan_results it buffer written = inr (buffer +:+ entries_text written it).
Proof.
  induction it as [|e it IH]; intros buffer written.
  - cbn [scan_results entries_text]. rewrite app_nil_r_str. reflexivity.
  - cbn [scan_results shim.Next entries_text]. rewrite IH. unfold entry_text.
    destruct written; rewrite !app_assoc_str; reflexivity.
Qed.

(** The payload, for every state: the entries of the range between two
    brackets. *)
Lemma queryAllHabits_response (stub : State) :
  queryAllHabits stub
  = (stub, shim.Success
      ("[" +:+ entries_text false (fst (shim.GetStateByRange stub "HABIT0" "HABIT999"))
       +:+ "]")).
Proof.
  unfold queryAllHabits, shim.GetStateByRange. cbn [fst].
  rewrite scan_results_text, !app_assoc_str. reflexivity.
Qed.

Lemma In_insert_by_key e x l : In x (shim.insert_by_key e l) <-> x = e \/ In x l.
Proof.
  induction l as [|e' l IH]; cbn [shim.insert_by_key In].
  - intuition.
  - destruct (String.ltb _ _); cbn [In]; [intuition |]. rewrite IH. intuition.
Qed.

Lemma In_sort_by_key x l : In x (shim.sort_by_key l) <-> In x l.
Proof.
  unfold shim.sort_by_key. induction l as [|e l IH]; cbn [foldr In]; [tauto |].
  rewrite In_insert_by_key, IH. intuition.
Qed.

(** The entries of a range scan: the keys of the state inside the range,
    each with its value. *)
Lemma In_GetStateByRange (stub : State) startKey endKey key b :
  In (shim.mkKV key b) (fst (shim.GetStateByRange stub startKey endKey))
  <-> String.leb startKey key && String.ltb key endKey = true /\ stub !! key = Some b.
Proof.
  unfold shim.GetStateByRange. cbn [fst]. rewrite In_sort_by_key, in_map_iff. split.
  - intros ([k v] & [= <- <-] & Hin). apply list_elem_of_In in Hin.
    apply list_elem_of_filter in Hin as [Hrange Hin]. cbn [fst] in Hrange.
    apply elem_of_map_to_list in Hin. auto.
  - intros [Hrange Hlookup]. exists (key, b). split; [reflexivity |].
    apply list_elem_of_In, list_elem_of_filter. split; [exact Hrange |].
    apply elem_of_map_to_list, Hlookup.
Qed.















(* ===================================================================== *)
(** * What the ledger holds after any invocations *)
(* ===================================================================== *)

Lemma habits_or_persons_insert (stub : State) key b :
  habits_or_persons stub ->
  (exists h, b = json.Marshal h) \/ In (key, b) person_entries ->
  habits_or_persons (<[key := b]> stub).
Proof.
  intros Hinv Hb key' b' Hlookup.
  destruct (decide (key = key')) as [<- | Hne].
  - rewrite lookup_insert_eq in Hlookup. injection Hlookup as <-. exact Hb.
  - rewrite lookup_insert_ne in Hlookup by exact Hne. exact (Hinv _ _ Hlookup).
Qed.

Lemma habits_or_persons_initLedger (stub : State) :
  habits_or_persons stub -> habits_or_persons (fst (initLedger stub)).
Proof.
  intros Hinv. rewrite initLedger_state, seed_entries_eq. cbn [foldl fst snd].
  repeat (apply habits_or_persons_insert;
          [| first [ left; eexists; reflexivity
                   | right; cbn; tauto ] ]).
  exact Hinv.
Qed.

Lemma habits_or_persons_Invoke (stub : State) input :
  habits_or_persons stub -> habits_or_persons (fst (Invoke stub input)).
Proof.
  intros Hinv. unfold Invoke.
  destruct (shim.GetFunctionAndParameters input) as [function args].
  destruct (String.eqb function "queryHabit").
  { rewrite queryHabit_state. exact Hinv. }
  destruct (String.eqb function "initLedger").
  { apply habits_or_persons_initLedger, Hinv. }
  destruct (String.eqb function "createHabit").
  { unfold createHabit. destruct (negb _); [exact Hinv |].
    cbn [shim.PutState fst]. apply habits_or_persons_insert; eauto. }
  destruct (String.eqb function "queryAllHabits").
  { rewrite queryAllHabits_state. exact Hinv. }
  destruct (String.eqb function "changeHabitOwner").
  { unfold changeHabitOwner. destruct (negb _); [exact Hinv |].
    cbn [shim.PutState shim.GetState fst]. apply habits_or_persons_insert; eauto. }
  destruct (String.eqb function "changeHabitAttendees").
  { unfold changeHabitAttendees. destruct (negb _); [exact Hinv |].
    cbn [shim.PutState shim.GetState fst]. apply habits_or_persons_insert; eauto. }
  exact Hinv.
Qed.

Lemma invoked_habits_or_persons (stub : State) : invoked stub -> habits_or_persons stub.
Proof.
  induction 1 as [| stub input _ IH].
  - intros key b Hlookup. rewrite lookup_empty in Hlookup. discriminate.
  - apply habits_or_persons_Invoke, IH.
Qed.

Lemma person_entries_out_of_range key b :
  In (key, b) person_entries -> in_range key = false /\ json.Valid b = true.
Proof.
  cbn. intros H.
  repeat destruct H as [H | H]; try contradiction;
    injection H as <- <-; split; vm_compute; reflexivity.
Qed.

(** X8. After any sequence of invocations from the empty ledger, every value
    the ledger holds is a well-formed JSON document: the encoding of a habit,
    or one of the four person records still under its [PERSON] key. The
    contract never stores anything else, whatever arguments it is given. *)
Theorem invoked_values (stub : State) (key b : string) :
  invoked stub ->
  stub !! key = Some b ->
  json.Valid b = true /\
  ((exists h, b = json.Marshal h) \/ In (key, b) person_entries).
Proof.
  intros Hinv Hlookup.
  pose proof (invoked_habits_or_persons _ Hinv _ _ Hlookup) as Hkind.
  split; [| exact Hkind].
  destruct Hkind as [[h ->] | Hperson].
  - unfold json.Valid. rewrite parse_Marshal. reflexivity.
  - apply (person_entries_out_of_range _ _ Hperson).
Qed.

Lemma invoked_values_witness :
  let stub := fst (Invoke ∅ ["initLedger"]) in
  invoked stub /\
  stub !! "PERSON2" = Some (json.MarshalPerson (mkPerson "Ruby" 5)) /\
  json.Valid (json.MarshalPerson (mkPerson "Ruby" 5)) = true.
Proof.
  cbv zeta.
  assert (Hinv : invoked (fst (Invoke ∅ ["initLedger"])))
    by (apply invoked_step, invoked_empty).
  assert (Hlookup : fst (Invoke ∅ ["initLedger"]) !! "PERSON2"
                    = Some (json.MarshalPerson (mkPerson "Ruby" 5))).
  { change (Invoke ∅ ["initLedger"]) with (initLedger ∅).
    rewrite initLedger_state, seed_entries_eq. cbn [foldl fst snd].
    lookup_inserts; reflexivity. }
  split; [exact Hinv |]. split; [exact Hlookup |].
  exact (proj1 (invoked_values _ "PERSON2" _ Hinv Hlookup)).
Defined.


(** X10. When the ledger holds no key inside the scanned range,
    [queryAllHabits] succeeds with exactly the two brackets, whatever it
    holds under other keys. *)
Theorem queryAllHabits_empty_range (stub : State) :
  (forall key, in_range key = true -> stub !! key = None) ->
  queryAllHabits stub = (stub, shim.Success "[]").
Proof.
  intros Hnone. rewrite queryAllHabits_response.
  destruct (fst (shim.GetStateByRange stub "HABIT0" "HABIT999")) as [|[key b] it] eqn:Hit;
    [reflexivity |].
  exfalso.
  assert (Hin : In (shim.mkKV key b) (fst (shim.GetStateByRange stub "HABIT0" "HABIT999")))
    by (rewrite Hit; left; reflexivity).
  apply In_GetStateByRange in Hin as [Hrange Hlookup].
  rewrite (Hnone key Hrange) in Hlookup. discriminate.
Qed.


Lemma queryAllHabits_empty_range_witness :
  let stub : State := {["PERSON0" := json.MarshalPerson (mkPerson "Kimi" 29)]} in
  (forall key, in_range key = true -> stub !! key = None) /\
  queryAllHabits stub = (stub, shim.Success "[]").
Proof.
  cbv zeta.
  assert (Hnone : forall key, in_range key = true ->
            ({["PERSON0" := json.MarshalPerson (mkPerson "Kimi" 29)]} : State) !! key = None).
  { intros key Hrange. apply lookup_singleton_ne. intros <-. discriminate Hrange. }
  split; [exact Hnone |].
  exact (queryAllHabits_empty_range _ Hnone).
Defined.

(* ===================================================================== *)
(** * Records read through the other type *)
(* ===================================================================== *)

(** X11. What [json.Marshal] writes for a habit whose strings are valid UTF-8
    is well-formed JSON, and [json.Unmarshal] reads the same habit back from
    it, whatever the struct held before: the read, modify and write of the
    two changes loses nothing. *)
Theorem Marshal_Unmarshal_round_trip (h h0 : Habit) :
  valid_habit h = true ->
  json.Valid (json.Marshal h) = true /\ json.Unmarshal (json.Marshal h) h0 = h.
Proof.
  intros Hvalid. split.
  - unfold json.Valid. rewrite parse_Marshal. reflexivity.
  - rewrite Unmarshal_Marshal. apply coerce_habit_valid, Hvalid.
Qed.

Lemma Marshal_Unmarshal_round_trip_witness :
  let h := mkHabit "bark" "Nature" (Some ["Ruby"; "Rocky"]) "Rocky" in
  valid_habit h = true /\
  json.Valid (json.Marshal h) = true /\ json.Unmarshal (json.Marshal h) zeroHabit = h.
Proof.
  cbv zeta. split; [reflexivity |].
  apply (Marshal_Unmarshal_round_trip
           (mkHabit "bark" "Nature" (Some ["Ruby"; "Rocky"]) "Rocky") zeroHabit).
  reflexivity.
Defined.

Lemma stored_habit_person (stub : State) (j : nat) (p : Person) :
  people !! j = Some p ->
  fst (initLedger stub) !! ("PERSON" +:+ Itoa (Z.of_nat j)) = Some (json.MarshalPerson p) /\
  stored_habit (fst (initLedger stub)) ("PERSON" +:+ Itoa (Z.of_nat j))
  = mkHabit (PersonName p) "" None "".
Proof.
  intros Hj.
  assert (Hlookup : fst (initLedger stub) !! ("PERSON" +:+ Itoa (Z.of_nat j))
                    = Some (json.MarshalPerson p)).
  { rewrite initLedger_state, seed_entries_eq. cbn [foldl fst snd].
    do 4 (destruct j as [|j]; [injection Hj as <-; lookup_inserts; reflexivity |]).
    discriminate Hj. }
  split; [exact Hlookup |].
  unfold stored_habit, shim.GetState. rewrite Hlookup. cbn [fst default id].
  do 4 (destruct j as [|j]; [injection Hj as <-; vm_compute; reflexivity |]).
  discriminate Hj.
Qed.

(** X12. The two record types are not told apart: after [initLedger],
    [changeHabitOwner] on the key of a person record succeeds and replaces it
    by a habit that has the person's name, an empty type, nil attendees and
    the new owner; the age is gone. *)
Theorem changeHabitOwner_on_person (stub : State) (j : nat) (p : Person) (owner : string) :
  people !! j = Some p ->
  let key := "PERSON" +:+ Itoa (Z.of_nat j) in
  let seeded := fst (initLedger stub) in
  seeded !! key = Some (json.MarshalPerson p) /\
  changeHabitOwner seeded [key; owner]
  = (<[key := json.Marshal (mkHabit (PersonName p) "" None owner)]> seeded,
     shim.Success "").
Proof.
  intros Hj. cbv zeta. destruct (stored_habit_person stub j p Hj) as [Hlookup Hstored].
  split; [exact Hlookup |].
  unfold stored_habit in Hstored. unfold changeHabitOwner.
  cbn [List.length Nat.eqb negb arg nth shim.PutState].
  destruct (shim.GetState _ _) as [habitAsBytes err]. cbn [fst] in Hstored.
  rewrite Hstored. reflexivity.
Qed.

Lemma changeHabitOwner_on_person_witness :
  people !! 0%nat = Some (mkPerson "Kimi" 29) /\
  fst (changeHabitOwner (fst (initLedger ∅)) ["PERSON0"; "X"]) !! "PERSON0"
  = Some (json.Marshal (mkHabit "Kimi" "" None "X")).
Proof.
  split; [reflexivity |].
  destruct (changeHabitOwner_on_person ∅ 0 (mkPerson "Kimi" 29) "X" eq_refl) as [_ H].
  change ("PERSON" +:+ Itoa (Z.of_nat 0)) with "PERSON0" in H.
  rewrite H. apply lookup_insert_eq.
Defined.

(* ===================================================================== *)
(** * Any strings, any state *)
(* ===================================================================== *)

Lemma coerce_fixed_valid s : coerce s = s -> utf8.ValidString s = true.
Proof. intros H. rewrite <- H. apply ValidString_coerce. Qed.

(** X13. For all strings, valid UTF-8 or not, the habit read back after
    [createHabit] and [queryHabit] has the four arguments coerced to valid
    UTF-8; it equals the arguments exactly when all four are valid UTF-8. *)
Theorem createHabit_then_queryHabit_any
    (stub : State) (key name type_ firstAttendee owner : string) :
  let created := createHabit stub [key; name; type_; firstAttendee; owner] in
  let queried := queryHabit (fst created) [key] in
  let decoded := json.Unmarshal (shim.Payload (snd queried)) zeroHabit in
  json.Valid (shim.Payload (snd queried)) = true /\
  decoded = mkHabit (coerce name) (coerce type_) (Some [coerce firstAttendee]) (coerce owner) /\
  (decoded = mkHabit name type_ (Some [firstAttendee]) owner <->
   utf8.ValidString name && utf8.ValidString type_ && utf8.ValidString firstAttendee
     && utf8.ValidString owner = true).
Proof.
  cbv zeta. rewrite createHabit_state, queryHabit_response, lookup_insert_eq.
  cbn [snd shim.Payload shim.Success default id].
  rewrite Unmarshal_Marshal. unfold coerce_habit.
  cbn [Name Type_ Attendees Owner option_map map].
  split; [unfold json.Valid; rewrite parse_Marshal; reflexivity |].
  split; [reflexivity |]. split.
  - intros [= Hn Ht Ha Ho].
    rewrite (coerce_fixed_valid _ Hn), (coerce_fixed_valid _ Ht),
      (coerce_fixed_valid _ Ha), (coerce_fixed_valid _ Ho). reflexivity.
  - intros H. repeat (apply andb_true_iff in H as [H ?]).
    rewrite !coerce_valid by assumption. reflexivity.
Qed.

(** X14. In any state and for any string, [changeHabitOwner] succeeds and
    leaves under the key the habit decoded before with its name, type and
    attendees as they were and the string, coerced to valid UTF-8, as its
    owner. *)
Theorem changeHabitOwner_any (stub : State) (key x : string) :
  let h := stored_habit stub key in
  let changed := changeHabitOwner stub [key; x] in
  shim.Status (snd changed) = shim.OK /\
  stored_habit (fst changed) key = mkHabit (Name h) (Type_ h) (Attendees h) (coerce x).
Proof.
  cbv zeta. split; [reflexivity |].
  rewrite changeHabitOwner_state. cbv zeta. rewrite stored_habit_insert.
  destruct (coerce_habit_fixed_fields _ (stored_habit_fixed stub key))
    as (Hn & Ht & Ha & _).
  unfold coerce_habit. cbn [Name Type_ Attendees Owner]. rewrite Hn, Ht, Ha.
  reflexivity.
Qed.
